(** * Meeting recorder: a shallow embedding of [app.py]

    The script [app.py] is a Streamlit page.  Every click reruns the script
    from top to bottom against the persistent [st.session_state]; the script
    talks to the microphone, the [recordings] directory, the speech model,
    the chat-completion API and the diagram widget.  The development below
    follows the script section by section:

    - [PyStr]     the [str] methods the script calls;
    - [Stamp]     [datetime.now().strftime("%Y%m%d_%H%M%S")] and the file name;
    - [Audio]     the capture buffer and the slice taken at stop time;
    - [PyVal]     the values [eval] can hand back, subscripting and iteration;
    - [App]       the script itself, as a state-and-exception monad over the
                  session, the directory and the screen;
    - [Runs]      the two handlers together, and what runs keep true;
    - [Live]      the stop handler and the runs when the reply is run as
                  code;
    - [Analyzer]  the request [generate_meeting_summary] sends.

    Calls to [logger] and [print] touch neither the session, the directory
    nor the page and are left out. *)

From Stdlib Require Import ZArith QArith Qround String Ascii List Bool Lia Lqa.
From stdpp Require Import base list sorting strings.
Import ListNotations.

Local Open Scope string_scope.
Local Open Scope Z_scope.

(* ------------------------------------------------------------------ *)
(** ** Python [str] methods used by the script

    A [str] is modelled by its UTF-8 encoding: an ASCII character is one
    byte, any other character a lead byte followed by its continuation
    bytes.  [strip] and iteration go by characters.  [lower] is given on
    the letters A to Z, which is all [color_priority] can tell apart: its
    keys are ASCII. *)

Module PyStr.

(** [s.startswith(p)] *)
Definition startswith (s p : string) : bool := String.prefix p s.

(** [s.endswith(p)] *)
Definition endswith (s p : string) : bool :=
  (String.length p <=? String.length s)%nat
  && String.eqb (substring (String.length s - String.length p)
                           (String.length p) s) p.

(** [p in s] *)
Fixpoint contains (p s : string) : bool :=
  String.prefix p s
  || match s with
     | EmptyString => false
     | String _ s' => contains p s'
     end.

(** A continuation byte of the encoding, [10xxxxxx]. *)
Definition continuation (c : ascii) : bool :=
  let n := N_of_ascii c in ((128 <=? n) && (n <? 192))%N.

(** [s] begins in the middle of a character. *)
Definition starts_inside (s : string) : bool :=
  match s with
  | EmptyString => false
  | String c _ => continuation c
  end.

(** The characters of [s] in order, each as the string of its bytes:
    what [for ch in s] yields. *)
Fixpoint characters (s : string) : list string :=
  match s with
  | EmptyString => []
  | String c s' =>
      match characters s' with
      | x :: xs =>
          if starts_inside x
          then String c x :: xs
          else String c EmptyString :: x :: xs
      | [] => [String c EmptyString]
      end
  end.

(** The string made of the characters [l]. *)
Definition of_characters (l : list string) : string :=
  fold_right String.append EmptyString l.

Definition byte (n : N) : string := String (ascii_of_N n) EmptyString.

(** The encoding of the code point [n]. *)
Definition utf8 (n : N) : string :=
  (if n <? 128 then byte n
   else if n <? 2048 then byte (192 + n / 64) ++ byte (128 + n mod 64)
   else if n <? 65536
   then byte (224 + n / 4096) ++ byte (128 + (n / 64) mod 64)
        ++ byte (128 + n mod 64)
   else byte (240 + n / 262144) ++ byte (128 + (n / 4096) mod 64)
        ++ byte (128 + (n / 64) mod 64) ++ byte (128 + n mod 64))%N.

(** The code points [str.isspace] holds of, which are the characters
    [str.strip()] removes: tab to carriage return, the separators FS GS RS
    US, the space, NEL, the no-break space, the Ogham space mark, the
    spaces U+2000 to U+200A, the line and paragraph separators, the narrow
    no-break space, the medium mathematical space and the ideographic
    space. *)
Definition whitespace : list N :=
  [9; 10; 11; 12; 13; 28; 29; 30; 31; 32; 133; 160; 5760;
   8192; 8193; 8194; 8195; 8196; 8197; 8198; 8199; 8200; 8201; 8202;
   8232; 8233; 8239; 8287; 12288]%N.

(** [ch.isspace()] on one character. *)
Definition isspace (ch : string) : bool :=
  existsb (String.eqb ch) (map utf8 whitespace).

(** The characters left once the leading white space is gone. *)
Fixpoint drop_spaces (l : list string) : list string :=
  match l with
  | [] => []
  | ch :: l' => if isspace ch then drop_spaces l' else l
  end.

(** [s.strip()]: white space is removed at both ends. *)
Definition strip (s : string) : string :=
  of_characters
    (List.rev (drop_spaces (List.rev (drop_spaces (characters s))))).

Definition lower_char (c : ascii) : ascii :=
  let n := N_of_ascii c in
  if ((65 <=? n) && (n <=? 90))%N then ascii_of_N (n + 32) else c.

(** [s.lower()], on the letters A to Z; every other character is kept. *)
Fixpoint lower (s : string) : string :=
  match s with
  | EmptyString => EmptyString
  | String c s' => String (lower_char c) (lower s')
  end.

(** [sep.join(parts)] *)
Definition join (sep : string) (parts : list string) : string :=
  String.concat sep parts.

End PyStr.

(* ------------------------------------------------------------------ *)
(** ** Time stamps and file names ([save_audio], lines 131-132) *)

Module Stamp.

(** What [datetime.now()] returns: a naive local date and time. *)
Record datetime := DateTime {
  year : Z; month : Z; day : Z;
  hour : Z; minute : Z; second : Z;
  microsecond : Z
}.

(** The ranges of the fields of a [datetime] whose year has four digits,
    as every reading of a present-day clock has. *)
Definition valid (d : datetime) : Prop :=
  1000 <= year d <= 9999 /\ 1 <= month d <= 12 /\ 1 <= day d <= 31 /\
  0 <= hour d <= 23 /\ 0 <= minute d <= 59 /\ 0 <= second d <= 59 /\
  0 <= microsecond d <= 999999.

Definition digit (n : Z) : ascii := ascii_of_N (48 + Z.to_N n).

(** Decimal representation of [n] on exactly [w] digits, zero padded:
    what [%m %d %H %M %S] print on two digits and [%Y] on four. *)
Fixpoint zpad (w : nat) (n : Z) : string :=
  match w with
  | O => EmptyString
  | S w' => zpad w' (n / 10) ++ String (digit (n mod 10)) EmptyString
  end.

(** [d.strftime("%Y%m%d_%H%M%S")] *)
Definition strftime (d : datetime) : string :=
  zpad 4 (year d) ++ zpad 2 (month d) ++ zpad 2 (day d) ++ "_" ++
  zpad 2 (hour d) ++ zpad 2 (minute d) ++ zpad 2 (second d).

(** [f"recordings/audio_{timestamp}.wav"] *)
Definition filename (d : datetime) : string :=
  "recordings/audio_" ++ strftime d ++ ".wav".

(** The name of that file inside the directory, as [os.listdir] gives it. *)
Definition basename (d : datetime) : string :=
  "audio_" ++ strftime d ++ ".wav".

(** Two clock readings fall in the same second. *)
Definition same_second (a b : datetime) : Prop :=
  year a = year b /\ month a = month b /\ day a = day b /\
  hour a = hour b /\ minute a = minute b /\ second a = second b.

Definition lex (c1 c2 : comparison) : comparison :=
  match c1 with Eq => c2 | _ => c1 end.

(** Chronological order of two time stamps, to the second. *)
Definition compare (a b : datetime) : comparison :=
  lex (Z.compare (year a) (year b))
 (lex (Z.compare (month a) (month b))
 (lex (Z.compare (day a) (day b))
 (lex (Z.compare (hour a) (hour b))
 (lex (Z.compare (minute a) (minute b))
      (Z.compare (second a) (second b)))))).

(** [a] is strictly more recent than [b]. *)
Definition newer (a b : datetime) : Prop := compare a b = Gt.

End Stamp.

(* ------------------------------------------------------------------ *)
(** ** The capture buffer ([record_audio_stream], line 174) *)

Module Audio.

(** A one-channel [float64] array: its number of frames and the sample
    held at each index.  [sd.rec] returns it at once and the device fills
    it while the capture runs. *)
Record ndarray := NdArray {
  frames : Z;
  sample : Z -> Q
}.

Definition AUDIO_SAMPLE_RATE : Z := 44100.
Definition MAX_RECORDING_HOURS : Z := 1.

(** [int(x)] on a float: truncation towards zero. *)
Definition int_of_float (x : Q) : Z := Z.quot (Qnum x) (Zpos (Qden x)).

(** [int(44100 * 3600)], the first argument of [sd.rec]. *)
Definition max_frames : Z := 44100 * 3600.

(** The stop index of the slice [a[:n]] on an array of [len] frames: a
    negative [n] counts from the end, and the result is clipped to
    [0 .. len]. *)
Definition slice_stop (len n : Z) : Z :=
  if n <? 0 then Z.max (len + n) 0 else Z.min n len.

(** [a[:n]] *)
Definition take (a : ndarray) (n : Z) : ndarray :=
  {| frames := slice_stop (frames a) n; sample := sample a |}.

(** [p] is a prefix of [a]: it is no longer and agrees with [a] on
    every index it has. *)
Definition is_prefix (p a : ndarray) : Prop :=
  0 <= frames p <= frames a /\
  forall i, 0 <= i < frames p -> sample p i = sample a i.

(** Rounding of a real result to a [float64], as far as the script
    depends on it: rounding is monotone and leaves the integers of the
    exactly representable range alone. *)
Record float_rounding (rnd : Q -> Q) : Prop := {
  rnd_monotone : forall x y : Q, (x <= y)%Q -> (rnd x <= rnd y)%Q;
  rnd_integer : forall z : Z,
      Z.abs z <= 2 ^ 53 -> (rnd (inject_Z z) == inject_Z z)%Q
}.

(** A [.wav] file as [sf.write(filename, recording, samplerate)] stores
    it. *)
Record wav := Wav { wav_data : ndarray; wav_rate : Z }.

End Audio.

(* ------------------------------------------------------------------ *)
(** ** Python values, as [eval] can return them *)

Module PyVal.

#[warnings="-register-all"] Inductive pyval :=
| PNone
| PBool (b : bool)
| PInt (z : Z)
| PFloat (q : Q)
| PStr (s : string)
| PList (items : list pyval)
| PDict (entries : list (string * pyval)).

Inductive exn :=
| KeyError (key : string)
| TypeError
| AttributeError
| DeviceError            (* raised by [sd.rec] *)
| StorageError           (* raised by [sf.write] *)
| TranscriptionError     (* raised by [model.transcribe] *)
| AnalysisTransportError (* raised by the chat-completion call *)
| EvalError              (* whatever [eval] raises on the reply *)
| RenderError            (* raised by [st_mermaid] *)
| BaseException (name : string).
                         (* one outside [Exception]: [SystemExit],
                            [KeyboardInterrupt], Streamlit's stop and
                            rerun signals *)

(** [isinstance(e, Exception)]: what [except Exception] catches. *)
Definition is_exception (e : exn) : bool :=
  match e with
  | BaseException _ => false
  | _ => true
  end.

Inductive outcome (A : Type) :=
| Ok (a : A)
| Raise (e : exn).
Arguments Ok {A} a.
Arguments Raise {A} e.

(** [bool(v)] *)
Definition truthy (v : pyval) : bool :=
  match v with
  | PNone => false
  | PBool b => b
  | PInt z => negb (z =? 0)
  | PFloat q => negb (Qeq_bool q 0)
  | PStr s => negb (String.eqb s "")
  | PList l => match l with [] => false | _ => true end
  | PDict d => match d with [] => false | _ => true end
  end.

Fixpoint assoc (k : string) (d : list (string * pyval)) : option pyval :=
  match d with
  | [] => None
  | (k', v) :: d' => if String.eqb k k' then Some v else assoc k d'
  end.

(** [v[k]] for a string key [k]: only a [dict] can be subscripted by a
    string. *)
Definition getitem (v : pyval) (k : string) : outcome pyval :=
  match v with
  | PDict d => match assoc k d with
               | Some x => Ok x
               | None => Raise (KeyError k)
               end
  | _ => Raise TypeError
  end.

(** The one-character strings a string yields when iterated. *)
Definition chars (s : string) : list pyval :=
  map PStr (PyStr.characters s).

(** The items a [for] loop (or [join]) draws from [v]: the elements of a
    list, the characters of a string, the keys of a dict. *)
Definition iterate (v : pyval) : outcome (list pyval) :=
  match v with
  | PList l => Ok l
  | PStr s => Ok (chars s)
  | PDict d => Ok (map (fun kv => PStr (fst kv)) d)
  | _ => Raise TypeError
  end.

Fixpoint all_str (l : list pyval) : outcome (list string) :=
  match l with
  | [] => Ok []
  | PStr s :: l' => match all_str l' with
                    | Ok ss => Ok (s :: ss)
                    | Raise e => Raise e
                    end
  | _ :: _ => Raise TypeError
  end.

(** [sep.join(v)] *)
Definition join (sep : string) (v : pyval) : outcome string :=
  match iterate v with
  | Ok l => match all_str l with
            | Ok ss => Ok (PyStr.join sep ss)
            | Raise e => Raise e
            end
  | Raise e => Raise e
  end.

End PyVal.

(* ------------------------------------------------------------------ *)
(** ** The script *)

Module App.
Import Stamp Audio PyVal.

(** *** The page *)

(** A piece of an f-string: literal text, a formatted value, or the text
    [str(e)] of a caught exception. *)
Inductive piece :=
| Lit (s : string)
| Val (v : pyval)
| ExcText (e : exn).

Definition text := list piece.

(** One dict appended to [action_items_df] (lines 226-232). *)
Record row := Row {
  Task : pyval;
  Assignee : pyval;
  Deadline : pyval;
  Priority : pyval;
  Dependencies : string
}.

(** What a run draws, in the order it is drawn.  Containers (expanders,
    spinners) are recorded where they open; buttons and columns, which
    only lay out or take input, are not recorded.  Pictographs in labels
    are dropped. *)
Inductive element :=
| Title (label : string)
| Write (v : pyval)
| Info (msg : string)
| Success (msg : string)
| Warning (msg : string)
| Error (msg : text)
| Header (label : string)
| Subheader (label : string)
| Expander (label : string) (expanded : bool)
| Spinner (label : string)
| Markdown (body : text)
| Dataframe (rows : list row) (priority_styles : list string)
| Mermaid (code : string) (height : Z)
| AudioPlayer (path : string).

(** *** [st.session_state] *)

(** The keys the script uses.  The first five are created by lines
    144-154 on the first run; [None] in [start_time], [elapsed_time] and
    [recorder] is Python's [None].  The three [last_*] keys are absent
    ([None] here) until the stop handler writes them. *)
Record session := Session {
  is_recording : bool;
  recording_started : bool;
  start_time : option Q;
  elapsed_time : option Q;
  recorder : option ndarray;
  last_recording : option string;
  last_transcription : option string;
  last_analysis : option pyval
}.

(** The session after lines 144-154 on the first load of the page. *)
Definition fresh : session :=
  Session false false None None None None None None.

Definition set_is_recording (b : bool) (s : session) : session :=
  Session b (recording_started s) (start_time s) (elapsed_time s)
          (recorder s) (last_recording s) (last_transcription s)
          (last_analysis s).
Definition set_recording_started (b : bool) (s : session) : session :=
  Session (is_recording s) b (start_time s) (elapsed_time s)
          (recorder s) (last_recording s) (last_transcription s)
          (last_analysis s).
Definition set_start_time (t : option Q) (s : session) : session :=
  Session (is_recording s) (recording_started s) t (elapsed_time s)
          (recorder s) (last_recording s) (last_transcription s)
          (last_analysis s).
Definition set_elapsed_time (t : option Q) (s : session) : session :=
  Session (is_recording s) (recording_started s) (start_time s) t
          (recorder s) (last_recording s) (last_transcription s)
          (last_analysis s).
Definition set_recorder (r : option ndarray) (s : session) : session :=
  Session (is_recording s) (recording_started s) (start_time s)
          (elapsed_time s) r (last_recording s) (last_transcription s)
          (last_analysis s).
Definition set_last_recording (p : string) (s : session) : session :=
  Session (is_recording s) (recording_started s) (start_time s)
          (elapsed_time s) (recorder s) (Some p) (last_transcription s)
          (last_analysis s).
Definition set_last_transcription (t : string) (s : session) : session :=
  Session (is_recording s) (recording_started s) (start_time s)
          (elapsed_time s) (recorder s) (last_recording s) (Some t)
          (last_analysis s).
Definition set_last_analysis (a : pyval) (s : session) : session :=
  Session (is_recording s) (recording_started s) (start_time s)
          (elapsed_time s) (recorder s) (last_recording s)
          (last_transcription s) (Some a).

(** *** The world a run acts on *)

(** Files by path, relative to the working directory, in directory
    order. *)
Definition files := list (string * wav).

Record world := World {
  state : session;
  disk : files;
  page : list element
}.

(** What the outside gives a run: each field is the result of the one call
    the run can make to that collaborator ([None]: the call raises). *)
Record env := Env {
  clock : Q;                       (* [time.time()] *)
  round : Q -> Q;                  (* rounding of float arithmetic *)
  microphone : option (Z -> Q);    (* [sd.rec]: the signal it will record *)
  today : datetime;                (* [datetime.now()] *)
  write_ok : bool;                 (* [sf.write] succeeds *)
  heard : option string;           (* [model.transcribe(f)["text"]] *)
  reply : option string;           (* [generate_meeting_summary(t)] *)
  evaluated : option pyval;        (* [eval] of that reply, when it only
                                      returns or raises *)
  diagram_ok : bool;               (* [st_mermaid] accepts the diagram *)
  fallback_ok : bool               (* [st_mermaid] accepts the fallback *)
}.

(** *** State and exceptions *)

Definition M (A : Type) : Type := world -> outcome A * world.

Definition ret {A} (a : A) : M A := fun w => (Ok a, w).

Definition bind {A B} (m : M A) (k : A -> M B) : M B :=
  fun w => match m w with
           | (Ok a, w') => k a w'
           | (Raise e, w') => (Raise e, w')
           end.

Definition raise {A} (e : exn) : M A := fun w => (Raise e, w).

(** [try: body except Exception as e: handler(e)].  What [body] did to the
    session, the disk and the page before it raised stays done; an
    exception outside [Exception] passes through. *)
Definition try_except {A} (body : M A) (handler : exn -> M A) : M A :=
  fun w => match body w with
           | (Ok a, w') => (Ok a, w')
           | (Raise e, w') =>
               if is_exception e then handler e w' else (Raise e, w')
           end.

Definition lift {A} (o : outcome A) : M A := fun w => (o, w).

Definition get : M session := fun w => (Ok (state w), w).

Definition get_disk : M files := fun w => (Ok (disk w), w).

Definition modify (f : session -> session) : M unit :=
  fun w => (Ok tt, World (f (state w)) (disk w) (page w)).

Definition emit (x : element) : M unit :=
  fun w => (Ok tt, World (state w) (disk w) (page w ++ [x])).

Definition when (b : bool) (m : M unit) : M unit :=
  if b then m else ret tt.

Declare Scope script_scope.
Delimit Scope script_scope with script.
Notation "x <- m ;; k" := (bind m (fun x => k))
  (at level 100, m at next level, right associativity) : script_scope.
Notation "m ;; k" := (bind m (fun _ => k))
  (at level 100, right associativity) : script_scope.
Local Open Scope script_scope.

(** [for x in l: body(x)] *)
Fixpoint for_each {A} (l : list A) (body : A -> M unit) : M unit :=
  match l with
  | [] => ret tt
  | x :: l' => body x ;; for_each l' body
  end.

(** A comprehension or accumulating loop whose body may raise. *)
Fixpoint collect {A B} (f : A -> outcome B) (l : list A)
  : outcome (list B) :=
  match l with
  | [] => Ok []
  | x :: l' =>
      match f x with
      | Ok y => match collect f l' with
                | Ok ys => Ok (y :: ys)
                | Raise e => Raise e
                end
      | Raise e => Raise e
      end
  end.

(** *** Recording and saving (lines 115-138) *)

Definition record_audio_stream (e : env) : M ndarray :=
  match microphone e with
  | Some signal => ret (NdArray max_frames signal)
  | None => raise DeviceError
  end.

Fixpoint write (path : string) (f : wav) (d : files) : files :=
  match d with
  | [] => [(path, f)]
  | (p, g) :: d' =>
      if String.eqb p path then (p, f) :: d' else (p, g) :: write path f d'
  end.

Fixpoint read (path : string) (d : files) : option wav :=
  match d with
  | [] => None
  | (p, g) :: d' => if String.eqb p path then Some g else read path d'
  end.

(** [sf.write(filename, recording, samplerate)]: creates the file, or
    replaces the one already at that path. *)
Definition sf_write (e : env) (filename : string) (recording : ndarray)
    (samplerate : Z) : M unit :=
  fun w =>
    if write_ok e
    then (Ok tt, World (state w)
                       (write filename (Wav recording samplerate) (disk w))
                       (page w))
    else (Raise StorageError, w).

Definition save_audio (e : env) (recording : ndarray) (samplerate : Z)
  : M string :=
  let timestamp := strftime (today e) in
  let filename := "recordings/audio_" ++ timestamp ++ ".wav" in
  sf_write e filename recording samplerate ;;
  ret filename.

(** *** The two buttons (lines 156-198) *)

Inductive click := NoClick | ClickStart | ClickStop.

Definition start_button (c : click) : bool :=
  match c with ClickStart => true | _ => false end.
Definition stop_button (c : click) : bool :=
  match c with ClickStop => true | _ => false end.

Definition start_recording (e : env) (c : click) : M unit :=
  s <- get ;;
  when (start_button c && negb (is_recording s))
    (modify (set_is_recording true) ;;
     modify (set_start_time (Some (clock e))) ;;
     modify (set_recording_started true) ;;
     r <- record_audio_stream e ;;
     modify (set_recorder (Some r)) ;;
     emit (Info "Recording... Click 'Stop Recording' when finished.")).

(** [time.time() - st.session_state['start_time']] *)
Definition elapsed_since (e : env) (t0 : option Q) : outcome Q :=
  match t0 with
  | Some t => Ok (round e (clock e - t))
  | None => Raise TypeError
  end.

(** [int(elapsed_time * 44100)] *)
Definition elapsed_frames (e : env) (elapsed : Q) : Z :=
  int_of_float (round e (elapsed * inject_Z 44100)).

Definition transcribe (e : env) (audio_file : string) : M string :=
  match heard e with
  | Some t => ret t
  | None => raise TranscriptionError
  end.

Definition generate_meeting_summary (e : env) (transcript : string)
  : M string :=
  match reply e with
  | Some r => ret r
  | None => raise AnalysisTransportError
  end.

(** [eval(analysis)] on a run in which evaluating the reply does nothing
    but give a value or raise an [Exception]; what a reply can do beyond
    that is the subject of [Live]. *)
Definition eval (e : env) (analysis : string) : M pyval :=
  match evaluated e with
  | Some v => ret v
  | None => raise EvalError
  end.

(** Lines 181-196, "Process the recording". *)
Definition process_recording (e : env) (audio_file : string) : M unit :=
  emit (Spinner "Transcribing audio...") ;;
  transcript <- transcribe e audio_file ;;
  modify (set_last_transcription transcript) ;;
  emit (Spinner "Analyzing meeting content...") ;;
  try_except
    (analysis <- generate_meeting_summary e transcript ;;
     analysis_dict <- eval e analysis ;;
     modify (set_last_analysis analysis_dict))
    (fun ex =>
       emit (Error [Lit "Error analyzing meeting content: "; ExcText ex])) ;;
  emit (Success "Analysis complete!") ;;
  modify (set_recorder None).

(** [sd.stop()] ends the device stream and leaves the array as it is. *)
Definition stop_recording (e : env) (c : click) : M unit :=
  s <- get ;;
  when (stop_button c && is_recording s)
    (match recorder s with
     | Some rec =>
         modify (set_is_recording false) ;;
         elapsed <- lift (elapsed_since e (start_time s)) ;;
         modify (set_elapsed_time (Some elapsed)) ;;
         let recording := take rec (elapsed_frames e elapsed) in
         audio_file <- save_audio e recording 44100 ;;
         modify (set_last_recording audio_file) ;;
         emit (Success "Recording saved!") ;;
         process_recording e audio_file
     | None => emit (Error [Lit "No recording in progress!"])
     end).

Definition recording_banner : M unit :=
  s <- get ;;
  when (is_recording s) (emit (Warning "Recording in progress...")).

(** *** Transcript and dashboard (lines 203-290) *)

Definition show_transcription : M unit :=
  s <- get ;;
  match last_transcription s with
  | Some t =>
      when (negb (String.eqb t ""))
        (emit (Expander "Meeting Transcript" false) ;;
         emit (Write (PStr t)))
  | None => ret tt
  end.

Fixpoint enumerate {A} (start : Z) (l : list A) : list (Z * A) :=
  match l with
  | [] => []
  | x :: l' => (start, x) :: enumerate (start + 1) l'
  end.

Definition action_row (item : pyval) : outcome row :=
  match getitem item "task" with
  | Raise e => Raise e
  | Ok task =>
  match getitem item "assignee" with
  | Raise e => Raise e
  | Ok assignee =>
  match getitem item "deadline" with
  | Raise e => Raise e
  | Ok deadline =>
  match getitem item "priority" with
  | Raise e => Raise e
  | Ok priority =>
  match getitem item "dependencies" with
  | Raise e => Raise e
  | Ok deps =>
  match PyVal.join ", " deps with
  | Raise e => Raise e
  | Ok joined => Ok (Row task assignee deadline priority joined)
  end end end end end end.

Definition colors : list (string * string) :=
  [("high", "background-color: #ffcccc");
   ("medium", "background-color: #ffffcc");
   ("low", "background-color: #ccffcc")].

(** [colors.get(key, '')] *)
Fixpoint colors_get (key : string) (d : list (string * string)) : string :=
  match d with
  | [] => ""
  | (k, v) :: d' => if String.eqb key k then v else colors_get key d'
  end.

(** [color_priority] on a string (line 243). *)
Definition color_of (val : string) : string :=
  colors_get (PyStr.lower val) colors.

(** [color_priority(val)]: [val.lower()] exists on strings only. *)
Definition color_priority (val : pyval) : outcome string :=
  match val with
  | PStr s => Ok (color_of s)
  | _ => Raise AttributeError
  end.
Definition nl : string := String "010"%char EmptyString.

(** The text appended at lines 259-262. *)
Definition default_style : string := "
                    style default fill:#f9f,stroke:#333,stroke-width:2px
                    style default fill:#bbf,stroke:#333,stroke-width:2px
                ".

(** Lines 254-262: the diagram text handed to the widget. *)
Definition normalize_diagram (diagram_code : string) : string :=
  let diagram_code :=
    if negb (PyStr.startswith (PyStr.strip diagram_code) "graph")
    then "graph TD" ++ nl ++ diagram_code
    else diagram_code in
  if negb (PyStr.contains "style" diagram_code)
  then diagram_code ++ default_style
  else diagram_code.

Definition legend : string := "
            **Diagram Legend:**
            - Topics/Discussions: [Square Brackets]
            - Decision Points: {Curly Braces}
            - Action Items: (Rounded Brackets)
            - Team Members: ((Double Circle))
            - Flow Direction: Arrows
            - Colors indicate priority/status
            ".

(** Lines 278-289. *)
Definition fallback_diagram : string := "
            graph TD
                Start[Meeting Start] --> Topics[Key Topics Discussed]
                Topics --> Decisions{Key Decisions}
                Decisions --> Actions([Action Items])
                Actions --> Team((Team Members))
                
                style Start fill:#f9f
                style Decisions fill:#ff9999
                style Actions fill:#99ff99
                style Team fill:#9999ff
            ".

(** [st_mermaid(code, height=h)]; [accepted] says whether the widget takes
    the text or raises. *)
Definition st_mermaid (accepted : bool) (code : string) (h : Z) : M unit :=
  if accepted then emit (Mermaid code h) else raise RenderError.

Definition executive_summary (analysis : pyval) : M unit :=
  emit (Expander "Executive Summary" true) ;;
  v <- lift (getitem analysis "executive_summary") ;;
  emit (Write v).

Definition key_decisions (analysis : pyval) : M unit :=
  emit (Expander "Key Decisions" true) ;;
  ds <- lift (getitem analysis "key_decisions") ;;
  items <- lift (iterate ds) ;;
  for_each (enumerate 1 items)
    (fun '(idx, decision) =>
       emit (Markdown [Lit "**"; Val (PInt idx); Lit ".** "; Val decision])).

Definition action_items_table (analysis : pyval) : M unit :=
  emit (Subheader "Action Items Tracker") ;;
  ais <- lift (getitem analysis "action_items") ;;
  items <- lift (iterate ais) ;;
  action_items_df <- lift (collect action_row items) ;;
  match action_items_df with
  | [] => ret tt
  | _ :: _ =>
      styles <- lift (collect (fun r => color_priority (Priority r))
                              action_items_df) ;;
      emit (Dataframe action_items_df styles)
  end.

Definition flow_diagram (e : env) (analysis : pyval) : M unit :=
  emit (Subheader "Meeting Flow Visualization") ;;
  emit (Expander "Meeting Flow Diagram" true) ;;
  try_except
    (v <- lift (getitem analysis "mermaid_diagram") ;;
     match v with
     | PStr diagram_code =>
         st_mermaid (diagram_ok e) (normalize_diagram diagram_code) 600 ;;
         emit (Info legend)
     | _ => raise AttributeError
     end)
    (fun _ =>
       emit (Error [Lit "Error rendering diagram. Using simplified version..."]) ;;
       st_mermaid (fallback_ok e) fallback_diagram 400).

(** Lines 211-245: the header, the summary, the decisions and the
    table. *)
Definition panels (analysis : pyval) : M unit :=
  emit (Header "Meeting Analysis Dashboard") ;;
  executive_summary analysis ;;
  key_decisions analysis ;;
  action_items_table analysis.

Definition dashboard (e : env) : M unit :=
  s <- get ;;
  match last_analysis s with
  | Some analysis =>
      when (truthy analysis)
        (panels analysis ;;
         flow_diagram e analysis)
  | None => ret tt
  end.

(** *** Playback and the saved recordings (lines 292-307) *)

Definition playback : M unit :=
  s <- get ;;
  match last_recording s with
  | Some path => emit (Header "Playback") ;; emit (AudioPlayer path)
  | None => ret tt
  end.

(** The name of [path] inside directory [dir], when it lies there. *)
Definition entry_name (dir path : string) : option string :=
  let d := dir ++ "/" in
  if String.prefix d path
  then Some (substring (String.length d)
                       (String.length path - String.length d) path)
  else None.

(** [os.listdir(dir)], in directory order. *)
Definition listdir (dir : string) (d : files) : list string :=
  omap (fun pf => entry_name dir (fst pf)) d.

#[global] Instance string_ge_dec : RelDecision (flip String.le).
Proof. intros a b. unfold flip. apply _. Defined.

(** [l.sort(reverse=True)] on strings. *)
Definition sort_reverse (l : list string) : list string :=
  merge_sort (flip String.le) l.

(** Lines 299-300. *)
Definition saved_recordings (listing : list string) : list string :=
  sort_reverse (List.filter (fun f => PyStr.endswith f ".wav") listing).

Definition show_saved_recordings : M unit :=
  emit (Expander "Saved Recordings" false) ;;
  d <- get_disk ;;
  for_each (saved_recordings (listdir "recordings" d))
    (fun recording =>
       emit (AudioPlayer ("recordings/" ++ recording)) ;;
       emit (Write (PStr recording))).

(** Everything below the two buttons (lines 200-307). *)
Definition display (e : env) : M unit :=
  recording_banner ;;
  show_transcription ;;
  dashboard e ;;
  playback ;;
  show_saved_recordings.

(** *** One run of the script, and a session of runs *)

Definition script (e : env) (c : click) : M unit :=
  emit (Title "Smart Meeting Recorder & Analyzer") ;;
  emit (Write (PStr "Record your meeting and get AI-powered insights!")) ;;
  start_recording e c ;;
  stop_recording e c ;;
  display e.

(** The page a run has drawn when it reaches the buttons. *)
Definition heading : list element :=
  [Title "Smart Meeting Recorder & Analyzer";
   Write (PStr "Record your meeting and get AI-powered insights!")].

(** A rerun starts from an empty page; the session and the disk persist,
    also when the run ends in an uncaught exception. *)
Definition rerun (e : env) (c : click) (w : world) : outcome unit * world :=
  script e c (World (state w) (disk w) []).

Fixpoint reruns (steps : list (env * click)) (w : world) : world :=
  match steps with
  | [] => w
  | (e, c) :: rest => reruns rest (snd (rerun e c w))
  end.

Definition first_load : world := World fresh [] [].

(** *** Sample surroundings *)

Definition silence : Z -> Q := fun _ => 0%Q.

(** A reply in the shape the prompt asks for, and the dict [eval] makes of
    it. *)
Definition dq : string := String "034"%char EmptyString.
Definition quoted (s : string) : string := dq ++ s ++ dq.

Definition sample_reply : string :=
  "{" ++ quoted "executive_summary" ++ ": " ++ quoted "Launch moved to May."
  ++ ", " ++ quoted "action_items" ++ ": [{"
  ++ quoted "task" ++ ": " ++ quoted "Draft the campaign" ++ ", "
  ++ quoted "assignee" ++ ": " ++ quoted "Sam" ++ ", "
  ++ quoted "deadline" ++ ": " ++ quoted "Tuesday" ++ ", "
  ++ quoted "priority" ++ ": " ++ quoted "High" ++ ", "
  ++ quoted "dependencies" ++ ": [" ++ quoted "budget" ++ "]}], "
  ++ quoted "key_decisions" ++ ": [" ++ quoted "Launch in May" ++ "], "
  ++ quoted "mermaid_diagram" ++ ": "
  ++ quoted "A[Meeting Start] --> B[Launch]" ++ "}".

Definition sample_analysis : pyval :=
  PDict [("executive_summary", PStr "Launch moved to May.");
         ("action_items",
          PList [PDict [("task", PStr "Draft the campaign");
                        ("assignee", PStr "Sam");
                        ("deadline", PStr "Tuesday");
                        ("priority", PStr "High");
                        ("dependencies", PList [PStr "budget"])]]);
         ("key_decisions", PList [PStr "Launch in May"]);
         ("mermaid_diagram", PStr "A[Meeting Start] --> B[Launch]")].

(** A run in which every collaborator answers: exact arithmetic, a
    working microphone, a writable disk, a transcript, and the sample
    reply.  It is taken at clock [t] seconds and wall-clock time [d]. *)
Definition answering (t : Q) (d : datetime) : env :=
  Env t (fun q => q) (Some silence) d true
      (Some "We launch in May.") (Some sample_reply) (Some sample_analysis)
      true true.

Definition afternoon : datetime := DateTime 2024 3 5 14 7 9 250000.
Definition noon_sharp : datetime := DateTime 2024 3 5 12 0 0 100000.
Definition noon_late : datetime := DateTime 2024 3 5 12 0 0 900000.
Definition next_second : datetime := DateTime 2024 3 5 12 0 1 100000.
Definition evening : datetime := DateTime 2024 3 5 19 30 0 0.

Definition studio : env := answering 100 afternoon.
Definition at_time (d : datetime) : env := answering 100 d.
Definition at_clock (t : Q) : env := answering t afternoon.

(** The same as [studio], with no audio device. *)
Definition unplugged : env :=
  Env 100 (fun q => q) None afternoon true
      (Some "We launch in May.") (Some sample_reply) (Some sample_analysis)
      true true.

(** The same as [studio] at clock 300 s, with a widget that refuses the
    diagram of the analysis. *)
Definition strict_widget : env :=
  Env 300 (fun q => q) (Some silence) afternoon true
      (Some "We launch in May.") (Some sample_reply) (Some sample_analysis)
      false true.

(** A run in which the analyzer answers with prose, on which [eval]
    raises. *)
Definition garbled : env :=
  Env 260 (fun q => q) (Some silence) (DateTime 2024 3 5 14 10 0 0) true
      (Some "Budget review.") (Some "Sorry, I cannot help with that.") None
      true true.

(** A run in which the analyzer answers with a Python dict display that
    is not JSON (single quotes) and has one field only; [eval] returns the
    dict. *)
Definition partial_analysis : pyval :=
  PDict [("executive_summary", PStr "Budget approved")].

Definition lenient : env :=
  Env 130 (fun q => q) (Some silence) (DateTime 2024 3 5 14 8 0 0) true
      (Some "Budget review.")
      (Some "{'executive_summary': 'Budget approved'}")
      (Some partial_analysis) true true.

(** The same as [studio] at clock 130 s, with a disk that refuses the
    write. *)
Definition disk_full : env :=
  Env 130 (fun q => q) (Some silence) afternoon false
      (Some "We launch in May.") (Some sample_reply) (Some sample_analysis)
      true true.

(** The same, with a speech model that fails. *)
Definition deaf : env :=
  Env 130 (fun q => q) (Some silence) afternoon true
      None (Some sample_reply) (Some sample_analysis) true true.

(** An action item whose dependencies are one plain string. *)
Definition loose_item : pyval :=
  PDict [("task", PStr "Book a room"); ("assignee", PStr "Ana");
         ("deadline", PStr "Friday"); ("priority", PStr "low");
         ("dependencies", PStr "none")].

(** A page whose session holds a number as its analysis. *)
Definition number_world : world :=
  World (set_last_analysis (PInt 1) fresh) [] [].

(** One and two seconds of sound. *)
Definition take_one : ndarray := NdArray 44100 silence.
Definition take_two : ndarray := NdArray 88200 silence.

(** The world once Start has been pressed on the first page, at clock
    100 s. *)
Definition recording_world : world := snd (rerun studio ClickStart first_load).

(** The world after one complete cycle and a second Start. *)
Definition second_cycle_world : world :=
  reruns [(studio, ClickStart); (at_clock 130.5, ClickStop);
          (at_clock 200, ClickStart)] first_load.

(** A page whose session holds the sample analysis. *)
Definition analysed_world : world :=
  World (set_last_analysis sample_analysis fresh) [] [].

(** *** The shape of an analysis *)

Definition is_str (v : pyval) : bool :=
  match v with PStr _ => true | _ => false end.

Definition is_str_list (v : pyval) : bool :=
  match v with PList l => forallb is_str l | _ => false end.

Definition has (check : pyval -> bool) (v : pyval) (k : string) : bool :=
  match getitem v k with Ok x => check x | Raise _ => false end.

(** An action item: a dict with string [task], [assignee], [deadline] and
    [priority], and a list of strings as [dependencies]. *)
Definition action_item_shape (v : pyval) : bool :=
  has is_str v "task" && has is_str v "assignee" &&
  has is_str v "deadline" && has is_str v "priority" &&
  has is_str_list v "dependencies".

Definition is_action_items (v : pyval) : bool :=
  match v with PList l => forallb action_item_shape l | _ => false end.

(** The reply the prompt asks for (lines 84-97): a dict with a string
    summary, a list of action items, a list of decisions and a diagram
    string. *)
Definition analysis_shape (v : pyval) : bool :=
  has is_str v "executive_summary" &&
  has is_action_items v "action_items" &&
  has is_str_list v "key_decisions" &&
  has is_str v "mermaid_diagram".

(** *** Parts of the script that only draw *)

(** [m] leaves the session and the disk as they are and adds to the page
    only elements that satisfy [P], whether it returns or raises. *)
Definition draws_only (P : element -> Prop) {A} (m : M A) : Prop :=
  forall w,
    state (snd (m w)) = state w /\
    disk (snd (m w)) = disk w /\
    exists added,
      page (snd (m w)) = (page w ++ added)%list /\ Forall P added.

(** The notice of the stop handler's [else] branch (line 198). *)
Definition idle_notice : element := Error [Lit "No recording in progress!"].

End App.

(* ------------------------------------------------------------------ *)
(** ** Runs of the page, one after another *)

Module Runs.
Import Stamp Audio PyVal App.
Local Open Scope script_scope.

(** Lines 156-198: the two button handlers in the order the script
    reaches them. *)
Definition handlers (e : env) (c : click) : M unit :=
  start_recording e c ;;
  stop_recording e c.

(** What every run leaves true of the session and the disk. *)
Record consistent (w : world) : Prop := {
  playable :
    forall p, last_recording (state w) = Some p -> read p (disk w) <> None;
  transcript_has_recording :
    last_transcription (state w) <> None -> last_recording (state w) <> None;
  analysis_has_transcript :
    last_analysis (state w) <> None -> last_transcription (state w) <> None;
  recorder_size :
    forall r, recorder (state w) = Some r -> frames r = max_frames;
  started_at :
    is_recording (state w) = true -> start_time (state w) <> None
}.

(** A capture is in flight whenever the flag says so. *)
Definition capturing (w : world) : Prop :=
  is_recording (state w) = true -> recorder (state w) <> None.

(** Every file is one [save_audio] names, and no name occurs twice. *)
Definition named_by_stamps (d : files) : Prop :=
  List.NoDup (map fst d) /\
  Forall (fun p => exists t, valid t /\ p = filename t) (map fst d).

(** The elements the saved-recordings section draws for one file. *)
Definition saved_entry (recording : string) : list element :=
  [AudioPlayer ("recordings/" ++ recording); Write (PStr recording)].

(** The lines the decisions panel draws for a list of decisions. *)
Definition decision_line (numbered : Z * pyval) : element :=
  Markdown [Lit "**"; Val (PInt (fst numbered)); Lit ".** ";
            Val (snd numbered)].

(** The elements the part below the buttons can draw: of the notices,
    only the recording banner, the diagram legend and the diagram error. *)
Definition display_element (x : element) : Prop :=
  match x with
  | Title _ | Success _ | Spinner _ => False
  | Info msg => msg = legend
  | Error msg =>
      msg = [Lit "Error rendering diagram. Using simplified version..."]
  | _ => True
  end.

(** What may be drawn between the buttons and the dashboard: the
    recording banner and the transcript panel. *)
Definition above_dashboard (x : element) : Prop :=
  match x with
  | Warning _ | Write _ => True
  | Expander label _ => label = "Meeting Transcript"
  | _ => False
  end.

(** A string as the list of its one-character strings. *)
Definition letters (s : string) : list string := PyStr.characters s.

End Runs.

(* ------------------------------------------------------------------ *)
(** ** The reply, run as code (line 190)

    [eval(analysis)] evaluates the reply as a Python expression in the
    globals of the script.  Such an expression can call anything the
    script can: it can write to [st.session_state], create and remove
    files, draw on the page, and what it raises need not be an
    [Exception] ([exit()] raises [SystemExit], [st.stop()] a signal of
    Streamlit's).  [App.eval] covers the replies that are evaluated
    without any of this: they give a value, or an error, and nothing
    else.  Here the evaluation of a reply is any computation over the
    session, the directory and the page, and the stop handler and the
    runs are given over it.  Evaluations that do not end, or that leave
    the session without one of its keys or with a value of another type
    in it, are not described. *)

Module Live.
Import Stamp Audio PyVal App.
Local Open Scope script_scope.

(** What [eval] does with the text it is given, on one run. *)
Definition evaluation := string -> M pyval.

(** Lines 181-196, "Process the recording". *)
Definition process_recording (eval : evaluation) (e : env)
    (audio_file : string) : M unit :=
  emit (Spinner "Transcribing audio...") ;;
  transcript <- transcribe e audio_file ;;
  modify (set_last_transcription transcript) ;;
  emit (Spinner "Analyzing meeting content...") ;;
  try_except
    (analysis <- generate_meeting_summary e transcript ;;
     analysis_dict <- eval analysis ;;
     modify (set_last_analysis analysis_dict))
    (fun ex =>
       emit (Error [Lit "Error analyzing meeting content: "; ExcText ex])) ;;
  emit (Success "Analysis complete!") ;;
  modify (set_recorder None).

(** Lines 167-198. *)
Definition stop_recording (eval : evaluation) (e : env) (c : click)
  : M unit :=
  s <- get ;;
  when (stop_button c && is_recording s)
    (match recorder s with
     | Some rec =>
         modify (set_is_recording false) ;;
         elapsed <- lift (elapsed_since e (start_time s)) ;;
         modify (set_elapsed_time (Some elapsed)) ;;
         let recording := take rec (elapsed_frames e elapsed) in
         audio_file <- save_audio e recording 44100 ;;
         modify (set_last_recording audio_file) ;;
         emit (Success "Recording saved!") ;;
         process_recording eval e audio_file
     | None => emit (Error [Lit "No recording in progress!"])
     end).

(** Lines 156-198: the two button handlers in the order the script
    reaches them. *)
Definition handlers (eval : evaluation) (e : env) (c : click) : M unit :=
  start_recording e c ;;
  stop_recording eval e c.

Definition script (eval : evaluation) (e : env) (c : click) : M unit :=
  emit (Title "Smart Meeting Recorder & Analyzer") ;;
  emit (Write (PStr "Record your meeting and get AI-powered insights!")) ;;
  start_recording e c ;;
  stop_recording eval e c ;;
  display e.

(** A rerun starts from an empty page; the session and the disk persist,
    also when the run ends in an uncaught exception. *)
Definition rerun (eval : evaluation) (e : env) (c : click) (w : world)
  : outcome unit * world :=
  script eval e c (World (state w) (disk w) []).

(** One run: what the outside gives it, what evaluating a reply does in
    it, and the button pressed. *)
Record run := Run {
  surroundings : env;
  evaluating : evaluation;
  pressed : click
}.

Fixpoint reruns (steps : list run) (w : world) : world :=
  match steps with
  | [] => w
  | r :: rest =>
      reruns rest (snd (rerun (evaluating r) (surroundings r) (pressed r) w))
  end.

(** The first load of the page on a directory that holds [d] (lines 26-27
    create the directory only when it is missing). *)
Definition load (d : files) : world := World fresh d [].

(** The evaluation changes nothing: it only returns or raises. *)
Definition inert (eval : evaluation) : Prop :=
  forall r w, snd (eval r w) = w.

(** The evaluation leaves the directory as it is. *)
Definition keeps_disk (eval : evaluation) : Prop :=
  forall r w, disk (snd (eval r w)) = disk w.

(** *** Sample evaluations *)

(** A reply that is a display of the value [v]. *)
Definition literal (v : pyval) : evaluation := fun _ => ret v.

(** A reply that is not an expression: [eval] raises [SyntaxError] before
    anything is run. *)
Definition not_an_expression : evaluation := fun _ => raise EvalError.

(** The reply [exit()]. *)
Definition exits : evaluation :=
  fun _ => raise (BaseException "SystemExit").

(** The reply [st.session_state.update(is_recording=True) or {}]. *)
Definition sets_the_flag : evaluation :=
  fun _ => modify (set_is_recording true) ;; ret (PDict []).

End Live.

(* ------------------------------------------------------------------ *)
(** ** The request to the analyzer (lines 47-113) *)

Module Analyzer.
Import App.

(** The text of the prompt before and after the transcript (lines
    50-98); in the f-string the doubled braces stand for single ones. *)
Definition prompt_head : string :=
  "
    Analyze the following meeting transcript and provide a comprehensive analysis with:
    1. A concise executive summary
    2. Detailed action items with assignees and deadlines
    3. A detailed Mermaid diagram that shows:
       - Main discussion topics and their flow
       - Decision points
       - Action items connected to responsible persons
       - Important conclusions
       - Any blockers or dependencies identified
    
    For the Mermaid diagram, strictly follow these rules:
    1. Use only graph TD or graph TB direction
    2. Start the diagram with: 'graph TD'
    3. Use proper Mermaid syntax for nodes and connections
    4. Avoided parentheses or other special characters in node names for cleaner rendering.
    5. Use these node styles:
       - Topics: [Topic Name]
       - Decisions: [Decision Point]
       - Actions: ([Action Item])
       - People: ((Person Name))
    6. Example format:
        graph TD
            A[Meeting Start] --> B[Decision 1]
            B --> |Approved| C([Action Item 1])
            C --> D((John))
            style B fill:#ff9999,stroke:#000,stroke-width:2px
            style D fill:#99ff99,stroke:#000,stroke-width:2px


    Transcript:
    ".

Definition prompt_tail : string :=
  "
    
    Format the response as JSON with the following structure:
    {
        "
  ++ dq
  ++ "executive_summary"
  ++ dq
  ++ ": "
  ++ dq
  ++ "brief but comprehensive summary"
  ++ dq
  ++ ",
        "
  ++ dq
  ++ "action_items"
  ++ dq
  ++ ": [
            {
                "
  ++ dq
  ++ "task"
  ++ dq
  ++ ": "
  ++ dq
  ++ "task description"
  ++ dq
  ++ ",
                "
  ++ dq
  ++ "assignee"
  ++ dq
  ++ ": "
  ++ dq
  ++ "person name"
  ++ dq
  ++ ",
                "
  ++ dq
  ++ "deadline"
  ++ dq
  ++ ": "
  ++ dq
  ++ "deadline or timeframe"
  ++ dq
  ++ ",
                "
  ++ dq
  ++ "priority"
  ++ dq
  ++ ": "
  ++ dq
  ++ "high/medium/low"
  ++ dq
  ++ ",
                "
  ++ dq
  ++ "dependencies"
  ++ dq
  ++ ": ["
  ++ dq
  ++ "any dependencies"
  ++ dq
  ++ "]
            }
        ],
        "
  ++ dq
  ++ "key_decisions"
  ++ dq
  ++ ": ["
  ++ dq
  ++ "list of key decisions made"
  ++ dq
  ++ "],
        "
  ++ dq
  ++ "mermaid_diagram"
  ++ dq
  ++ ": "
  ++ dq
  ++ "mermaid diagram code here"
  ++ dq
  ++ "
    }
    ".

(** [prompt], for a transcript. *)
Definition prompt (transcript : string) : string :=
  prompt_head ++ transcript ++ prompt_tail.

(** The content of the system message (lines 103-106). *)
Definition system_content : string :=
  "You are an expert meeting analyzer specializing in creating comprehensive visual representations of meetings.
            Always ensure the Mermaid diagram code is valid and starts with 'graph TD'.
            Use simple shapes and clear connections in the diagram.
            Avoid complex Mermaid syntax that might not be widely supported.".

Record message := Message { role : string; content : string }.

(** The arguments of [client.chat.completions.create]. *)
Record request := Request {
  model : string;
  messages : list message;
  response_format : string
}.

Definition analysis_request (transcript : string) : request :=
  Request "gpt-4o"
          [Message "system" system_content;
           Message "user" (prompt transcript)]
          "json_object".

End Analyzer.

(* ================================================================== *)
(** * Properties *)

(** ** Strings *)

Section StringFacts.

Lemma app_empty (b : string) : "" ++ b = b.
Proof. reflexivity. Qed.

Lemma app_String (c : ascii) (a b : string) :
  String c a ++ b = String c (a ++ b).
Proof. reflexivity. Qed.

Lemma string_length_app (a b : string) :
  String.length (a ++ b) = (String.length a + String.length b)%nat.
Proof. induction a as [|c a IH]; simpl; [reflexivity | now rewrite IH]. Qed.

Lemma ascii_compare_refl (c : ascii) : Ascii.compare c c = Eq.
Proof. unfold Ascii.compare. apply N.compare_refl. Qed.

Lemma string_compare_refl (s : string) : String.compare s s = Eq.
Proof.
  induction s as [|c s IH]; simpl; [reflexivity|].
  now rewrite ascii_compare_refl.
Qed.

Lemma string_compare_eq (a b : string) : String.compare a b = Eq <-> a = b.
Proof.
  split; [apply String.compare_eq_iff | intros ->; apply string_compare_refl].
Qed.

(** Comparing two strings that start with blocks of the same length
    compares the blocks first. *)
Lemma compare_app_same_length (a b x y : string) :
  String.length a = String.length b ->
  String.compare (a ++ x) (b ++ y)
  = Stamp.lex (String.compare a b) (String.compare x y).
Proof.
  revert b; induction a as [|c a IH]; intros [|c' b] Hlen;
    simpl in *; try discriminate; [reflexivity|].
  destruct (Ascii.compare c c'); simpl; auto.
Qed.

Lemma compare_common_prefix (p x y : string) :
  String.compare (p ++ x) (p ++ y) = String.compare x y.
Proof.
  rewrite compare_app_same_length by reflexivity.
  now rewrite string_compare_refl.
Qed.

Lemma substring_app_tail (a b : string) :
  substring (String.length a) (String.length b) (a ++ b) = b.
Proof.
  induction a as [|c a IH].
  - rewrite app_empty. simpl.
    induction b as [|c b IHb]; simpl; [reflexivity | now rewrite IHb].
  - rewrite app_String. simpl. exact IH.
Qed.

Lemma endswith_app (a p : string) : PyStr.endswith (a ++ p) p = true.
Proof.
  unfold PyStr.endswith. rewrite string_length_app.
  apply andb_true_intro; split.
  - apply Nat.leb_le. lia.
  - replace (String.length a + String.length p - String.length p)%nat
      with (String.length a) by lia.
    rewrite substring_app_tail. apply String.eqb_refl.
Qed.

End StringFacts.

(** ** Time stamps and file names *)

Section StampFacts.
Import Stamp.

Lemma zpad_length (w : nat) (n : Z) : String.length (zpad w n) = w.
Proof.
  revert n; induction w as [|w IH]; intros n; simpl; [reflexivity|].
  rewrite string_length_app, IH. simpl. lia.
Qed.

Lemma digit_compare (a b : Z) :
  0 <= a < 10 -> 0 <= b < 10 ->
  Ascii.compare (digit a) (digit b) = Z.compare a b.
Proof.
  intros Ha Hb. unfold Ascii.compare, digit.
  rewrite !N_ascii_embedding by lia.
  rewrite <- N2Z.inj_compare, !N2Z.inj_add, !Z2N.id by lia.
  now rewrite Z.add_compare_mono_l.
Qed.

Lemma lex_div_mod (n m : Z) :
  lex (Z.compare (n / 10) (m / 10)) (Z.compare (n mod 10) (m mod 10))
  = Z.compare n m.
Proof.
  pose proof (Z.div_mod n 10 ltac:(lia)) as Hn.
  pose proof (Z.div_mod m 10 ltac:(lia)) as Hm.
  pose proof (Z.mod_pos_bound n 10 ltac:(lia)).
  pose proof (Z.mod_pos_bound m 10 ltac:(lia)).
  unfold lex.
  destruct (Z.compare_spec (n / 10) (m / 10)) as [E|E|E].
  - destruct (Z.compare_spec (n mod 10) (m mod 10));
      symmetry; [apply Z.compare_eq_iff | apply Z.compare_lt_iff
                | apply Z.compare_gt_iff]; lia.
  - symmetry; apply Z.compare_lt_iff; lia.
  - symmetry; apply Z.compare_gt_iff; lia.
Qed.

Lemma mod_10_split (n p : Z) :
  0 < p ->
  (n mod (10 * p)) / 10 = (n / 10) mod p /\
  (n mod (10 * p)) mod 10 = n mod 10.
Proof.
  intros Hp. rewrite Z.rem_mul_r by lia.
  pose proof (Z.mod_pos_bound n 10 ltac:(lia)) as Hr.
  set (r := n mod 10) in *. set (x := (n / 10) mod p).
  replace (r + 10 * x) with (r + x * 10) by lia. split.
  - rewrite Z.div_add by lia. rewrite (Z.div_small r 10) by lia. lia.
  - rewrite Z.mod_add by lia. apply Z.mod_small; lia.
Qed.

(** Zero-padded decimals of one width compare as the numbers do. *)
Lemma zpad_compare (w : nat) (n m : Z) :
  String.compare (zpad w n) (zpad w m) = Z.compare (n mod 10 ^ Z.of_nat w)
                                                   (m mod 10 ^ Z.of_nat w).
Proof.
  revert n m; induction w as [|w IH]; intros n m.
  - simpl. now rewrite !Z.mod_1_r.
  - cbn [zpad]. rewrite compare_app_same_length by now rewrite !zpad_length.
    rewrite IH. cbn [String.compare].
    rewrite digit_compare by (apply Z.mod_pos_bound; lia).
    replace (match Z.compare (n mod 10) (m mod 10) with
             | Eq => Eq | Lt => Lt | Gt => Gt end)
      with (Z.compare (n mod 10) (m mod 10))
      by now destruct (Z.compare (n mod 10) (m mod 10)).
    rewrite Nat2Z.inj_succ, Z.pow_succ_r by lia.
    set (p := 10 ^ Z.of_nat w).
    assert (0 < p) by (apply Z.pow_pos_nonneg; lia).
    rewrite <- (lex_div_mod (n mod (10 * p)) (m mod (10 * p))).
    destruct (mod_10_split n p) as [-> ->]; [lia|].
    destruct (mod_10_split m p) as [-> ->]; [lia|].
    reflexivity.
Qed.

Lemma zpad_compare_small (w : nat) (n m : Z) :
  0 <= n < 10 ^ Z.of_nat w -> 0 <= m < 10 ^ Z.of_nat w ->
  String.compare (zpad w n) (zpad w m) = Z.compare n m.
Proof. intros Hn Hm. now rewrite zpad_compare, !Z.mod_small. Qed.

Lemma strftime_length (d : datetime) : String.length (strftime d) = 15%nat.
Proof.
  unfold strftime. rewrite !string_length_app, !zpad_length. reflexivity.
Qed.

(** The printed stamps of two valid clock readings compare, as strings,
    the way the readings compare in time. *)
Lemma strftime_compare (a b : datetime) :
  valid a -> valid b ->
  String.compare (strftime a) (strftime b) = Stamp.compare a b.
Proof.
  intros (Ya & Ma & Da & ha & ma & sa & _) (Yb & Mb & Db & hb & mb & sb & _).
  unfold strftime, Stamp.compare.
  repeat (rewrite compare_app_same_length
            by (rewrite ?zpad_length; reflexivity)).
  rewrite !zpad_compare_small by (cbn; lia).
  reflexivity.
Qed.

Lemma basename_compare (a b : datetime) :
  valid a -> valid b ->
  String.compare (basename a) (basename b) = Stamp.compare a b.
Proof.
  intros Ha Hb. unfold basename.
  rewrite compare_common_prefix.
  rewrite compare_app_same_length by now rewrite !strftime_length.
  rewrite strftime_compare, string_compare_refl by assumption.
  now destruct (Stamp.compare a b).
Qed.

Lemma filename_compare (a b : datetime) :
  valid a -> valid b ->
  String.compare (filename a) (filename b) = Stamp.compare a b.
Proof.
  intros Ha Hb. unfold filename.
  rewrite compare_common_prefix.
  rewrite compare_app_same_length by now rewrite !strftime_length.
  rewrite strftime_compare, string_compare_refl by assumption.
  now destruct (Stamp.compare a b).
Qed.

Lemma lex_eq (c1 c2 : comparison) : lex c1 c2 = Eq <-> c1 = Eq /\ c2 = Eq.
Proof. destruct c1, c2; simpl; intuition discriminate. Qed.

Lemma compare_eq_same_second (a b : datetime) :
  Stamp.compare a b = Eq <-> same_second a b.
Proof.
  unfold Stamp.compare, same_second.
  rewrite !lex_eq, !Z.compare_eq_iff. tauto.
Qed.

Lemma filename_eq_same_second (a b : datetime) :
  valid a -> valid b -> (filename a = filename b <-> same_second a b).
Proof.
  intros Ha Hb.
  rewrite <- compare_eq_same_second, <- filename_compare by assumption.
  symmetry. apply string_compare_eq.
Qed.

End StampFacts.

(** ** Parts of the script that only draw *)

Section Drawing.
Import PyVal App.
Local Open Scope script_scope.

Variable P : element -> Prop.

Lemma draws_only_ret {A} (a : A) : draws_only P (ret a).
Proof.
  intros w; simpl; repeat split; exists []; split;
    [now rewrite app_nil_r | constructor].
Qed.

Lemma draws_only_raise {A} (e : exn) : draws_only P (@raise A e).
Proof.
  intros w; simpl; repeat split; exists []; split;
    [now rewrite app_nil_r | constructor].
Qed.

Lemma draws_only_lift {A} (o : outcome A) : draws_only P (lift o).
Proof.
  intros w; simpl; repeat split; exists []; split;
    [now rewrite app_nil_r | constructor].
Qed.

Lemma draws_only_get : draws_only P get.
Proof.
  intros w; simpl; repeat split; exists []; split;
    [now rewrite app_nil_r | constructor].
Qed.

Lemma draws_only_get_disk : draws_only P get_disk.
Proof.
  intros w; simpl; repeat split; exists []; split;
    [now rewrite app_nil_r | constructor].
Qed.

Lemma draws_only_emit (x : element) : P x -> draws_only P (emit x).
Proof.
  intros Hx w; simpl; repeat split; exists [x]; split;
    [reflexivity | now repeat constructor].
Qed.

Lemma draws_only_bind {A B} (m : M A) (k : A -> M B) :
  draws_only P m -> (forall a, draws_only P (k a)) -> draws_only P (bind m k).
Proof.
  intros Hm Hk w. unfold bind.
  destruct (Hm w) as (Hs & Hd & added & Hp & HP).
  destruct (m w) as [[a|e] w1]; simpl in *.
  - destruct (Hk a w1) as (Hs' & Hd' & added' & Hp' & HP').
    rewrite Hs', Hd', Hp', Hs, Hd, Hp. repeat split.
    exists (added ++ added')%list; split;
      [now rewrite app_assoc | now apply Forall_app].
  - repeat split; auto. now exists added.
Qed.

Lemma draws_only_try {A} (m : M A) (h : exn -> M A) :
  draws_only P m -> (forall e, draws_only P (h e)) -> draws_only P (try_except m h).
Proof.
  intros Hm Hh w. unfold try_except.
  destruct (Hm w) as (Hs & Hd & added & Hp & HP).
  destruct (m w) as [[a|e] w1]; simpl in *.
  - repeat split; auto. now exists added.
  - destruct (is_exception e); simpl.
    + destruct (Hh e w1) as (Hs' & Hd' & added' & Hp' & HP').
      rewrite Hs', Hd', Hp', Hs, Hd, Hp. repeat split.
      exists (added ++ added')%list; split;
        [now rewrite app_assoc | now apply Forall_app].
    + repeat split; auto. now exists added.
Qed.

Lemma draws_only_when (b : bool) (m : M unit) :
  draws_only P m -> draws_only P (when b m).
Proof. destruct b; simpl; auto using draws_only_ret. Qed.

Lemma draws_only_for_each {A} (l : list A) (body : A -> M unit) :
  (forall x, draws_only P (body x)) -> draws_only P (for_each l body).
Proof.
  intros Hb; induction l as [|x l IH]; simpl;
    auto using draws_only_ret, draws_only_bind.
Qed.

End Drawing.

Ltac draw :=
  repeat first
    [ apply draws_only_ret | apply draws_only_raise | apply draws_only_lift
    | apply draws_only_get | apply draws_only_get_disk
    | apply draws_only_bind | apply draws_only_try
    | apply draws_only_when | apply draws_only_for_each
    | apply draws_only_emit
    | progress intros
    | match goal with
      | |- App.draws_only _ (match ?x with _ => _ end) => destruct x
      end ].

Section Display.
Import PyVal App.

(** Below the two buttons the script changes neither the session nor the
    disk, and it never draws the notice of line 198. *)
Lemma display_draws (e : env) :
  draws_only (fun x => x <> idle_notice) (display e).
Proof.
  unfold display, recording_banner, show_transcription, dashboard, panels,
    executive_summary, key_decisions, action_items_table, flow_diagram,
    st_mermaid, playback, show_saved_recordings, idle_notice.
  draw; try discriminate.
Qed.

End Display.

(** ** The two buttons *)

Section Buttons.
Import PyVal App.

Lemma world_eta (w : world) : World (state w) (disk w) (page w) = w.
Proof. now destruct w. Qed.

(** A click on Stop leaves the start handler idle, and conversely. *)
Lemma start_recording_other (e : env) (c : click) (w : world) :
  start_button c = false -> start_recording e c w = (Ok tt, w).
Proof. intros H. unfold start_recording, bind, get. now rewrite H. Qed.

Lemma stop_recording_other (e : env) (c : click) (w : world) :
  stop_button c = false -> stop_recording e c w = (Ok tt, w).
Proof. intros H. unfold stop_recording, bind, get. now rewrite H. Qed.

Lemma start_recording_busy (e : env) (c : click) (w : world) :
  is_recording (state w) = true -> start_recording e c w = (Ok tt, w).
Proof.
  intros H. unfold start_recording, bind, get. rewrite H.
  now rewrite andb_false_r.
Qed.

Lemma stop_recording_idle (e : env) (c : click) (w : world) :
  is_recording (state w) = false -> stop_recording e c w = (Ok tt, w).
Proof.
  intros H. unfold stop_recording, bind, get. rewrite H.
  now rewrite andb_false_r.
Qed.

Lemma rerun_idle_stop (e : env) (w : world) :
  is_recording (state w) = false ->
  rerun e ClickStop w = display e (World (state w) (disk w) heading).
Proof.
  intros H. unfold rerun, script, bind at 1 2. simpl.
  unfold bind at 1. rewrite start_recording_other by reflexivity.
  unfold bind. now rewrite stop_recording_idle.
Qed.

(** C3.  Stop pressed while [is_recording] is false: the stop handler does
    nothing at all, so the run changes neither the session nor the disk,
    and the page it draws does not carry the notice of line 198: that
    notice sits in the [else] of the inner test, which is reached only
    while [is_recording] is true. *)
Theorem stop_while_idle_shows_no_notice (e : env) (w : world) :
  is_recording (state w) = false ->
  stop_recording e ClickStop w = (Ok tt, w) /\
  state (snd (rerun e ClickStop w)) = state w /\
  disk (snd (rerun e ClickStop w)) = disk w /\
  ~ In idle_notice (page (snd (rerun e ClickStop w))).
Proof.
  intros H. split; [now apply stop_recording_idle|].
  rewrite rerun_idle_stop by assumption.
  destruct (display_draws e (World (state w) (disk w) heading))
    as (Hs & Hd & added & Hp & HP).
  rewrite Hs, Hd, Hp. simpl. repeat split.
  intros [E|[E|Hin]]; try discriminate.
  rewrite List.Forall_forall in HP. now apply (HP idle_notice).
Qed.

Lemma stop_while_idle_shows_no_notice_witness :
  is_recording (state first_load) = false /\
  ~ In idle_notice (page (snd (rerun studio ClickStop first_load))).
Proof.
  split; [reflexivity|].
  apply (stop_while_idle_shows_no_notice studio first_load). reflexivity.
Defined.

(** A start whose device cannot be opened: the flag and the start time
    are already written when [sd.rec] raises, and stay. *)
Lemma rerun_start_no_device (e : env) (w : world) :
  is_recording (state w) = false ->
  microphone e = None ->
  fst (rerun e ClickStart w) = Raise DeviceError /\
  state (snd (rerun e ClickStart w))
  = set_recording_started true
      (set_start_time (Some (clock e)) (set_is_recording true (state w))).
Proof.
  intros H Hm. unfold rerun, script, bind at 1 2. simpl.
  unfold bind at 1. unfold start_recording, bind, get, record_audio_stream.
  simpl. rewrite H, Hm. simpl. split; reflexivity.
Qed.

Lemma stop_recording_stuck (e : env) (c : click) (w : world) :
  is_recording (state w) = true ->
  recorder (state w) = None ->
  exists p, stop_recording e c w = (Ok tt, World (state w) (disk w) p).
Proof.
  intros H Hr. unfold stop_recording, bind, get. simpl.
  rewrite H, Hr, andb_true_r.
  destruct (stop_button c); simpl; eauto.
  exists (page w). now rewrite world_eta.
Qed.

(** Once the flag is set with no recorder, no click changes the session. *)
Lemma rerun_stuck (e : env) (c : click) (w : world) :
  is_recording (state w) = true ->
  recorder (state w) = None ->
  state (snd (rerun e c w)) = state w.
Proof.
  intros H Hr. unfold rerun, script, bind at 1 2. simpl.
  unfold bind at 1. rewrite start_recording_busy by (simpl; assumption).
  unfold bind at 1.
  match goal with
  | |- context [stop_recording e c ?w0] =>
      destruct (stop_recording_stuck e c w0 H Hr) as (p & ->)
  end.
  simpl.
  now destruct (display_draws e (World (state w) (disk w) p)) as (Hs & _).
Qed.

Lemma reruns_stuck (steps : list (env * click)) (w : world) :
  is_recording (state w) = true ->
  recorder (state w) = None ->
  state (reruns steps w) = state w.
Proof.
  revert w; induction steps as [|[e c] steps IH]; intros w H Hr; simpl;
    [reflexivity|].
  pose proof (rerun_stuck e c w H Hr) as Hs.
  rewrite IH; rewrite Hs; auto.
Qed.

(** C4.  Start pressed while the audio device cannot be opened, then any
    clicks whatever: [is_recording] is true after the failed start and
    after every later run, although no capture is in flight ([recorder]
    is [None]); Stop answers with the notice of line 198 and leaves the
    flag set, and Start stays disabled by its guard. *)
Theorem failed_start_leaves_flag_set (e : env) (steps : list (env * click)) :
  microphone e = None ->
  is_recording (state (reruns ((e, ClickStart) :: steps) first_load)) = true /\
  recorder (state (reruns ((e, ClickStart) :: steps) first_load)) = None.
Proof.
  intros Hm. cbn [reruns].
  destruct (rerun_start_no_device e first_load eq_refl Hm) as (_ & Hs).
  rewrite reruns_stuck; rewrite Hs; split; reflexivity.
Qed.

Lemma failed_start_leaves_flag_set_witness :
  microphone unplugged = None /\
  is_recording
    (state (reruns [(unplugged, ClickStart); (studio, ClickStop);
                    (studio, ClickStart)] first_load)) = true.
Proof.
  split; [reflexivity|].
  apply (failed_start_leaves_flag_set unplugged
           [(studio, ClickStop); (studio, ClickStart)]).
  reflexivity.
Defined.

End Buttons.

(** ** Saving *)

Section Saving.
Import Stamp Audio PyVal App.

Lemma read_write_same (path : string) (f : wav) (d : files) :
  read path (write path f d) = Some f.
Proof.
  induction d as [|[p g] d IH]; simpl.
  - now rewrite String.eqb_refl.
  - destruct (String.eqb p path) eqn:E; simpl; rewrite E; auto.
Qed.

Lemma read_write_other (path path' : string) (f : wav) (d : files) :
  path <> path' -> read path' (write path f d) = read path' d.
Proof.
  intros Hne. induction d as [|[p g] d IH]; simpl.
  - destruct (String.eqb path path') eqn:E; [|reflexivity].
    apply String.eqb_eq in E. contradiction.
  - destruct (String.eqb p path) eqn:E; simpl.
    + apply String.eqb_eq in E. subst p.
      destruct (String.eqb path path') eqn:E'; [|reflexivity].
      apply String.eqb_eq in E'. contradiction.
    + destruct (String.eqb p path'); auto.
Qed.

Lemma save_audio_ok (e : env) (recording : ndarray) (rate : Z) (w : world) :
  write_ok e = true ->
  save_audio e recording rate w
  = (Ok (filename (today e)),
     World (state w)
           (write (filename (today e)) (Wav recording rate) (disk w))
           (page w)).
Proof.
  intros H. unfold save_audio, bind, sf_write. now rewrite H.
Qed.

(** C2, the counterexample.  Two saves 0.8 s apart inside one second, of
    two different recordings: both return the same file name, the second
    is not refused, and afterwards the directory holds one file, with the
    second recording in it. *)
Lemma save_audio_same_second_overwrites :
  exists (name : string) (w1 w2 : world),
    save_audio (at_time noon_sharp) take_one 44100 first_load = (Ok name, w1) /\
    save_audio (at_time noon_late) take_two 44100 w1 = (Ok name, w2) /\
    take_one <> take_two /\
    read name (disk w1) = Some (Wav take_one 44100) /\
    read name (disk w2) = Some (Wav take_two 44100) /\
    length (disk w2) = 1%nat.
Proof.
  eexists _, _, _. rewrite !save_audio_ok by reflexivity.
  repeat split; discriminate.
Qed.

(** C2, as the code has it.  Two saves on a writable disk both return a
    file name; the names are equal exactly when the two clock readings
    fall in the same second.  When they do not, both recordings are on
    disk afterwards, each under its own name; when they do, the one name
    holds the later recording. *)
Theorem save_audio_name_per_second
    (e1 e2 : env) (rec1 rec2 : ndarray) (w : world) :
  valid (today e1) -> valid (today e2) ->
  write_ok e1 = true -> write_ok e2 = true ->
  exists w1 w2,
    save_audio e1 rec1 44100 w = (Ok (filename (today e1)), w1) /\
    save_audio e2 rec2 44100 w1 = (Ok (filename (today e2)), w2) /\
    (filename (today e1) = filename (today e2)
     <-> same_second (today e1) (today e2)) /\
    (~ same_second (today e1) (today e2) ->
     read (filename (today e1)) (disk w2) = Some (Wav rec1 44100) /\
     read (filename (today e2)) (disk w2) = Some (Wav rec2 44100)) /\
    (same_second (today e1) (today e2) ->
     read (filename (today e1)) (disk w2) = Some (Wav rec2 44100)).
Proof.
  intros V1 V2 W1 W2.
  eexists _, _. rewrite !save_audio_ok by assumption.
  pose proof (filename_eq_same_second _ _ V1 V2) as Hiff.
  split; [reflexivity|]. split; [reflexivity|]. split; [exact Hiff|].
  simpl. split.
  - intros Hs. split; [|apply read_write_same].
    rewrite read_write_other, read_write_same; [reflexivity|].
    intros E. apply Hs, Hiff. now symmetry.
  - intros Hs. apply Hiff in Hs. rewrite Hs. apply read_write_same.
Qed.

Lemma save_audio_name_per_second_witness :
  valid (today (at_time noon_sharp)) /\ valid (today (at_time next_second)) /\
  read (filename noon_sharp)
       (disk (snd (save_audio (at_time next_second) take_two 44100
                     (snd (save_audio (at_time noon_sharp) take_one 44100
                             first_load)))))
  = Some (Wav take_one 44100).
Proof.
  assert (V1 : valid (today (at_time noon_sharp)))
    by (unfold valid; simpl; lia).
  assert (V2 : valid (today (at_time next_second)))
    by (unfold valid; simpl; lia).
  split; [exact V1 | split; [exact V2|]].
  destruct (save_audio_name_per_second (at_time noon_sharp)
              (at_time next_second) take_one take_two first_load
              V1 V2 eq_refl eq_refl)
    as (w1 & w2 & E1 & E2 & _ & Hdiff & _).
  rewrite E1. cbn [snd]. rewrite E2. cbn [snd].
  apply Hdiff. unfold same_second; simpl. lia.
Defined.

End Saving.

(** ** The slice taken at stop time *)

Section Slicing.
Import Audio.

(** [a[:n]] is a prefix of [a], for every [n] and every [a]. *)
Lemma take_is_prefix (a : ndarray) (n : Z) :
  0 <= frames a -> is_prefix (take a n) a.
Proof.
  intros Ha. unfold is_prefix, take, slice_stop; simpl.
  split; [|reflexivity].
  destruct (n <? 0) eqn:E; [apply Z.ltb_lt in E | apply Z.ltb_ge in E]; lia.
Qed.

Lemma take_frames_in_range (a : ndarray) (n : Z) :
  0 <= n <= frames a -> frames (take a n) = n.
Proof.
  intros Hn. unfold take, slice_stop; simpl.
  destruct (n <? 0) eqn:E; [apply Z.ltb_lt in E | apply Z.ltb_ge in E]; lia.
Qed.

(** Asking for more than the array holds returns the array itself. *)
Lemma take_all (a : ndarray) (n : Z) :
  0 <= frames a -> frames a <= n -> take a n = a.
Proof.
  intros Ha Hn. destruct a as [len s]; unfold take, slice_stop; simpl in *.
  destruct (n <? 0) eqn:E; [apply Z.ltb_lt in E; lia|].
  f_equal. lia.
Qed.

Lemma int_of_float_nonneg (x : Q) :
  (0 <= x)%Q -> int_of_float x = Qfloor x.
Proof.
  destruct x as [n d]. unfold Qle, int_of_float, Qfloor; simpl.
  intros Hn. apply Z.quot_div_nonneg; lia.
Qed.

(** A rounded value lies between the integers on either side of the exact
    one. *)
Lemma round_between (rnd : Q -> Q) (x : Q) :
  float_rounding rnd ->
  Z.abs (Qfloor x) <= 2 ^ 53 -> Z.abs (Qceiling x) <= 2 ^ 53 ->
  (inject_Z (Qfloor x) <= rnd x <= inject_Z (Qceiling x))%Q.
Proof.
  intros [Hmono Hint] Hf Hc. split.
  - rewrite <- (Hint _ Hf). apply Hmono, Qfloor_le.
  - rewrite <- (Hint _ Hc). apply Hmono, Qle_ceiling.
Qed.

(** [int(x * 44100)] in float arithmetic is within one frame of the exact
    product, and no more than an hour of frames when [x] is at most an
    hour. *)
Lemma frames_of_duration (rnd : Q -> Q) (d : Q) :
  float_rounding rnd ->
  (0 <= d <= 3600)%Q ->
  let n := int_of_float (rnd (d * inject_Z 44100)%Q) in
  0 <= n <= max_frames /\
  (d * inject_Z 44100 - 1 < inject_Z n < d * inject_Z 44100 + 1)%Q.
Proof.
  intros Hr [Hd0 Hd1] n. set (x := (d * inject_Z 44100)%Q) in *.
  assert (Hx0 : (0 <= x)%Q)
    by (unfold x; change (inject_Z 44100) with (44100 # 1); lra).
  assert (Hx1 : (x <= inject_Z max_frames)%Q)
    by (unfold x; change (inject_Z max_frames) with (158760000 # 1);
        change (inject_Z 44100) with (44100 # 1); lra).
  assert (Hf0 : 0 <= Qfloor x)
    by (rewrite <- (Qfloor_Z 0); now apply Qfloor_resp_le).
  assert (Hc1 : Qceiling x <= max_frames)
    by (rewrite <- (Qceiling_Z max_frames); now apply Qceiling_resp_le).
  pose proof (Qle_floor_ceiling x) as Hfc. rewrite <- Zle_Qle in Hfc.
  assert (Hb : (inject_Z (Qfloor x) <= rnd x <= inject_Z (Qceiling x))%Q).
  { assert (Hp : 2 ^ 53 = 9007199254740992) by reflexivity.
    apply round_between; [assumption| |]; rewrite Hp;
      unfold max_frames in *; lia. }
  destruct Hb as [Hlo Hhi].
  assert (Hn : n = Qfloor (rnd x)).
  { apply int_of_float_nonneg.
    apply Qle_trans with (inject_Z (Qfloor x)); [|assumption].
    change 0%Q with (inject_Z 0). now rewrite <- Zle_Qle. }
  assert (Hn0 : Qfloor x <= n)
    by (rewrite Hn, <- (Qfloor_Z (Qfloor x)); now apply Qfloor_resp_le).
  assert (Hn1 : n <= Qceiling x)
    by (rewrite Hn, <- (Qfloor_Z (Qceiling x)); now apply Qfloor_resp_le).
  split; [lia|].
  pose proof (Qlt_floor x) as Hlt. pose proof (Qceiling_lt x) as Hgt.
  rewrite Zle_Qle in Hn0, Hn1.
  rewrite inject_Z_plus in Hlt. unfold Z.sub in Hgt.
  rewrite inject_Z_plus in Hgt.
  change (inject_Z 1) with 1%Q in Hlt.
  change (inject_Z (- (1))) with (- (1))%Q in Hgt.
  clearbody n. clearbody x.
  generalize dependent (inject_Z (Qfloor x)).
  generalize dependent (inject_Z (Qceiling x)).
  generalize dependent (inject_Z n).
  intros; split; lra.
Qed.

End Slicing.

(** ** Stop, while a capture is in flight *)

Section Stopping.
Import Stamp Audio PyVal App.

Lemma exact_rounding : float_rounding (fun q => q).
Proof. split; [auto | reflexivity]. Qed.

(** Processing the recording touches neither the disk nor the timing
    fields of the session. *)
Lemma process_recording_frame (e : env) (f : string) (w : world) :
  disk (snd (process_recording e f w)) = disk w /\
  elapsed_time (state (snd (process_recording e f w)))
  = elapsed_time (state w) /\
  is_recording (state (snd (process_recording e f w)))
  = is_recording (state w) /\
  last_recording (state (snd (process_recording e f w)))
  = last_recording (state w).
Proof.
  unfold process_recording, bind, emit, transcribe, modify, try_except,
    generate_meeting_summary, eval, ret, raise.
  destruct (heard e), (reply e), (evaluated e); simpl; auto.
Qed.

(** The stop handler up to and including the save (lines 167-179). *)
Lemma stop_recording_saves (e : env) (w : world) (rec : ndarray) (t0 : Q) :
  is_recording (state w) = true ->
  recorder (state w) = Some rec ->
  start_time (state w) = Some t0 ->
  write_ok e = true ->
  let d := round e (clock e - t0) in
  stop_recording e ClickStop w
  = process_recording e (filename (today e))
      (World (set_last_recording (filename (today e))
                (set_elapsed_time (Some d)
                   (set_is_recording false (state w))))
             (write (filename (today e))
                    (Wav (take rec (elapsed_frames e d)) 44100) (disk w))
             (page w ++ [Success "Recording saved!"])%list).
Proof.
  intros Hi Hr Ht Hw d.
  unfold stop_recording, bind at 1, get. rewrite Hi, Hr, Ht. simpl.
  unfold bind at 1 2 3. simpl. unfold bind at 1.
  rewrite save_audio_ok by assumption.
  reflexivity.
Qed.

(** C5.  A stop [d] seconds after the start, with [0 <= d <= 3600], on a
    buffer of the size [record_audio_stream] allocates: [elapsed_time] is
    [d], and the file written holds a prefix of the buffer whose number of
    frames is less than one frame away from [d * 44100]. *)
Theorem stop_saves_elapsed_prefix
    (e : env) (w : world) (rec : ndarray) (t0 : Q) :
  float_rounding (round e) ->
  is_recording (state w) = true ->
  recorder (state w) = Some rec ->
  frames rec = max_frames ->
  start_time (state w) = Some t0 ->
  write_ok e = true ->
  (0 <= round e (clock e - t0) <= 3600)%Q ->
  let d := round e (clock e - t0) in
  let w' := snd (stop_recording e ClickStop w) in
  exists saved,
    elapsed_time (state w') = Some d /\
    read (filename (today e)) (disk w') = Some (Wav saved 44100) /\
    is_prefix saved rec /\
    (d * inject_Z 44100 - 1 < inject_Z (frames saved)
     < d * inject_Z 44100 + 1)%Q.
Proof.
  intros Hf Hi Hr Hlen Ht Hw Hd d w'.
  exists (take rec (elapsed_frames e d)).
  unfold w'. rewrite (stop_recording_saves e w rec t0) by assumption.
  fold d.
  match goal with
  | |- context [process_recording e ?f ?w0] =>
      destruct (process_recording_frame e f w0) as (-> & -> & _)
  end.
  cbn [disk state elapsed_time set_last_recording]. rewrite read_write_same.
  destruct (frames_of_duration (round e) d Hf Hd) as (Hn & Hq).
  fold (elapsed_frames e d) in Hn, Hq.
  split; [reflexivity|]. split; [reflexivity|]. split.
  - apply take_is_prefix. rewrite Hlen. unfold max_frames. lia.
  - rewrite take_frames_in_range by (rewrite Hlen; exact Hn). exact Hq.
Qed.

Lemma stop_saves_elapsed_prefix_witness :
  (0 <= round (at_clock 130.5) (clock (at_clock 130.5) - 100) <= 3600)%Q /\
  exists saved,
    read (filename (today (at_clock 130.5)))
         (disk (snd (stop_recording (at_clock 130.5) ClickStop
                       recording_world)))
    = Some (Wav saved 44100) /\
    is_prefix saved (NdArray max_frames silence).
Proof.
  assert (Hd : (0 <= round (at_clock 130.5) (clock (at_clock 130.5) - 100)
                <= 3600)%Q)
    by (split; apply Qle_bool_iff; reflexivity).
  split; [exact Hd|].
  destruct (stop_saves_elapsed_prefix (at_clock 130.5) recording_world
              (NdArray max_frames silence) 100
              exact_rounding eq_refl eq_refl eq_refl eq_refl eq_refl Hd)
    as (saved & _ & Hread & Hpre & _).
  exists saved. split; assumption.
Defined.

(** C10.  The slice taken at stop time, for every reading of the clock
    and every rounding: the slice is computed without raising and the file
    is written; what is written is a prefix of the buffer of at most
    [44100 * 3600] frames, and it is the whole buffer as soon as the
    requested length reaches that number. *)
Theorem stop_slice_is_total
    (e : env) (w : world) (signal : Z -> Q) (t0 : Q) :
  is_recording (state w) = true ->
  recorder (state w) = Some (NdArray max_frames signal) ->
  start_time (state w) = Some t0 ->
  write_ok e = true ->
  let rec := NdArray max_frames signal in
  let n := elapsed_frames e (round e (clock e - t0)) in
  let w' := snd (stop_recording e ClickStop w) in
  read (filename (today e)) (disk w') = Some (Wav (take rec n) 44100) /\
  is_prefix (take rec n) rec /\
  frames (take rec n) <= 44100 * 3600 /\
  (44100 * 3600 <= n -> take rec n = rec).
Proof.
  intros Hi Hr Ht Hw rec n w'.
  unfold w'. rewrite (stop_recording_saves e w rec t0) by assumption.
  match goal with
  | |- context [process_recording e ?f ?w0] =>
      destruct (process_recording_frame e f w0) as (-> & _)
  end.
  cbn [disk]. rewrite read_write_same.
  assert (Hlen : 0 <= frames rec) by (simpl; unfold max_frames; lia).
  pose proof (take_is_prefix rec n Hlen) as Hp.
  split; [reflexivity|]. split; [exact Hp|]. split.
  - destruct Hp as [[_ Hle] _]. exact Hle.
  - intros Hn. now apply take_all.
Qed.

Lemma stop_slice_is_total_witness :
  is_recording (state recording_world) = true /\
  take (NdArray max_frames silence)
       (elapsed_frames (at_clock 7300)
          (round (at_clock 7300) (clock (at_clock 7300) - 100)))
  = NdArray max_frames silence.
Proof.
  split; [reflexivity|].
  apply (stop_slice_is_total (at_clock 7300) recording_world silence 100
           eq_refl eq_refl eq_refl eq_refl).
  vm_compute. discriminate.
Defined.

End Stopping.

(** ** Analysis of the reply *)

Section Analysis.
Import Stamp Audio PyVal App.

(** C9, the counterexample.  A first cycle stores an analysis; in the
    second cycle the analyzer answers with prose and [eval] raises.
    Afterwards the session holds the second transcript together with the
    first cycle's analysis, and the dashboard of that very run shows the
    first cycle's summary. *)
Lemma failed_parse_keeps_stale_analysis :
  last_analysis (state second_cycle_world) = Some sample_analysis /\
  evaluated garbled = None /\
  last_transcription (state (snd (rerun garbled ClickStop second_cycle_world)))
  = Some "Budget review." /\
  last_analysis (state (snd (rerun garbled ClickStop second_cycle_world)))
  = Some sample_analysis /\
  In (Write (PStr "Launch moved to May."))
     (page (snd (rerun garbled ClickStop second_cycle_world))).
Proof.
  split; [reflexivity|]. split; [reflexivity|].
  split; [reflexivity|]. split; [reflexivity|].
  vm_compute. tauto.
Qed.

(** The stop handler up to and including the save (lines 167-179), when
    the reply is run as code. *)
Lemma live_stop_recording_saves
    (eval : Live.evaluation) (e : env) (w : world) (rec : ndarray) (t0 : Q) :
  is_recording (state w) = true ->
  recorder (state w) = Some rec ->
  start_time (state w) = Some t0 ->
  write_ok e = true ->
  let d := round e (clock e - t0) in
  Live.stop_recording eval e ClickStop w
  = Live.process_recording eval e (filename (today e))
      (World (set_last_recording (filename (today e))
                (set_elapsed_time (Some d)
                   (set_is_recording false (state w))))
             (write (filename (today e))
                    (Wav (take rec (elapsed_frames e d)) 44100) (disk w))
             (page w ++ [Success "Recording saved!"])%list).
Proof.
  intros Hi Hr Ht Hw d.
  unfold Live.stop_recording, bind at 1, get. rewrite Hi, Hr, Ht. simpl.
  unfold bind at 1 2 3. simpl. unfold bind at 1.
  rewrite save_audio_ok by assumption.
  reflexivity.
Qed.

(** Lines 182-196 once the transcript and the reply are there: the reply
    is evaluated in a world that holds the transcript, and the handler
    goes on from the world the evaluation leaves. *)
Lemma live_process_recording_heard
    (eval : Live.evaluation) (e : env) (f t r : string) (w : world) :
  heard e = Some t -> reply e = Some r ->
  Live.process_recording eval e f w
  = match eval r (World (set_last_transcription t (state w)) (disk w)
                        (page w ++ [Spinner "Transcribing audio...";
                                    Spinner "Analyzing meeting content..."])%list)
    with
    | (Ok v, after) =>
        (Ok tt,
         World (set_recorder None (set_last_analysis v (state after)))
               (disk after)
               (page after ++ [Success "Analysis complete!"])%list)
    | (Raise ex, after) =>
        if is_exception ex
        then (Ok tt,
              World (set_recorder None (state after)) (disk after)
                    (page after
                     ++ [Error [Lit "Error analyzing meeting content: ";
                                ExcText ex];
                         Success "Analysis complete!"])%list)
        else (Raise ex, after)
    end.
Proof.
  intros Hh Hr.
  unfold Live.process_recording, bind, emit, transcribe, modify, try_except,
    generate_meeting_summary, ret, raise.
  rewrite Hh, Hr. cbn [state disk page]. rewrite <- List.app_assoc.
  cbn [List.app].
  destruct (eval r _) as [[v|ex] after]; cbn [state disk page];
    [reflexivity|].
  destruct (is_exception ex); cbn [state disk page]; [|reflexivity].
  now rewrite <- List.app_assoc.
Qed.

(** C9, as the code has it.  A stop whose save and transcription succeed
    and whose reply makes [eval] raise an [Exception] without having
    written to the session, as it does on a text that is not an
    expression: the handler returns normally after drawing the error
    notice, the session holds the transcript of this cycle, and
    [last_analysis] is what it was before the cycle. *)
Theorem failed_parse_keeps_transcript
    (eval : Live.evaluation) (e : env) (w : world) (rec : ndarray) (t0 : Q)
    (t r : string) (ex : exn) :
  is_recording (state w) = true ->
  recorder (state w) = Some rec ->
  start_time (state w) = Some t0 ->
  write_ok e = true ->
  heard e = Some t -> reply e = Some r ->
  (forall w0, fst (eval r w0) = Raise ex /\
              state (snd (eval r w0)) = state w0) ->
  is_exception ex = true ->
  let w' := snd (Live.stop_recording eval e ClickStop w) in
  fst (Live.stop_recording eval e ClickStop w) = Ok tt /\
  last_transcription (state w') = Some t /\
  last_analysis (state w') = last_analysis (state w) /\
  In (Error [Lit "Error analyzing meeting content: "; ExcText ex])
     (page w').
Proof.
  intros Hi Hr Ht Hw Hh Hre Hev Hex w'. unfold w'.
  rewrite (live_stop_recording_saves eval e w rec t0) by assumption.
  rewrite (live_process_recording_heard eval e _ t r) by assumption.
  match goal with
  | |- context [eval r ?w1] =>
      destruct (Hev w1) as (Hraise & Hstate);
      destruct (eval r w1) as [o after]
  end.
  cbn [fst snd] in Hraise, Hstate. subst o. rewrite Hex.
  cbn [fst snd state page]. rewrite Hstate. cbn [state].
  split; [reflexivity|]. split; [reflexivity|]. split; [reflexivity|].
  apply in_or_app. right. now left.
Qed.

Lemma failed_parse_keeps_transcript_witness :
  is_recording (state second_cycle_world) = true /\
  is_exception EvalError = true /\
  last_transcription
    (state (snd (Live.stop_recording Live.not_an_expression garbled ClickStop
                   second_cycle_world)))
  = Some "Budget review." /\
  last_analysis
    (state (snd (Live.stop_recording Live.not_an_expression garbled ClickStop
                   second_cycle_world)))
  = Some sample_analysis.
Proof.
  assert (Hi : is_recording (state second_cycle_world) = true)
    by (vm_compute; reflexivity).
  assert (Hr : recorder (state second_cycle_world)
               = Some (NdArray max_frames silence))
    by (vm_compute; reflexivity).
  assert (Ht : start_time (state second_cycle_world) = Some 200%Q)
    by (vm_compute; reflexivity).
  assert (Ha : last_analysis (state second_cycle_world)
               = Some sample_analysis)
    by (vm_compute; reflexivity).
  split; [exact Hi|]. split; [reflexivity|].
  destruct (failed_parse_keeps_transcript Live.not_an_expression garbled
              second_cycle_world (NdArray max_frames silence) 200
              "Budget review." "Sorry, I cannot help with that." EvalError
              Hi Hr Ht eq_refl eq_refl eq_refl
              (fun w0 => conj eq_refl eq_refl) eq_refl)
    as (_ & H1 & H2 & _).
  split; [exact H1|]. now rewrite H2.
Defined.

(** C1.  The reply ["{'executive_summary': 'Budget approved'}"] is not a
    JSON document and lacks three of the four fields.  [eval] returns a
    dict for it, so the stop handler stores it as the analysis of the
    cycle and draws no error; the run then ends in an uncaught [KeyError]
    when the dashboard reads [key_decisions]. *)
Theorem unchecked_reply_is_stored :
  reply lenient = Some "{'executive_summary': 'Budget approved'}" /\
  analysis_shape partial_analysis = false /\
  last_analysis (state (snd (rerun lenient ClickStop recording_world)))
  = Some partial_analysis /\
  fst (rerun lenient ClickStop recording_world)
  = Raise (KeyError "key_decisions") /\
  forall msg, ~ In (Error msg)
                   (page (snd (rerun lenient ClickStop recording_world))).
Proof.
  split; [reflexivity|]. split; [reflexivity|].
  split; [reflexivity|]. split; [reflexivity|].
  intros msg. vm_compute. intuition discriminate.
Qed.

End Analysis.

(** ** The list of saved recordings *)

Section Listing.
Import Stamp App.

Lemma string_app_assoc (a b c : string) : (a ++ b) ++ c = a ++ (b ++ c).
Proof.
  induction a as [|x a IH]; [reflexivity|].
  rewrite !app_String. now rewrite IH.
Qed.

Lemma basename_endswith_wav (d : datetime) :
  PyStr.endswith (basename d) ".wav" = true.
Proof.
  unfold basename. rewrite <- string_app_assoc. apply endswith_app.
Qed.

Lemma prefix_app (p s : string) : String.prefix p (p ++ s) = true.
Proof.
  induction p as [|c p IH]; [now destruct s|].
  rewrite app_String. simpl. now destruct (ascii_dec c c).
Qed.

Lemma entry_name_app (dir name : string) :
  entry_name dir ((dir ++ "/") ++ name) = Some name.
Proof.
  unfold entry_name. cbv zeta. set (p := dir ++ "/").
  rewrite prefix_app, string_length_app.
  replace (String.length p + String.length name - String.length p)%nat
    with (String.length name) by lia.
  now rewrite substring_app_tail.
Qed.

(** The file [save_audio] writes shows up in [os.listdir("recordings")]
    under its base name. *)
Lemma entry_name_filename (d : datetime) :
  entry_name "recordings" (filename d) = Some (basename d).
Proof. exact (entry_name_app "recordings" (basename d)). Qed.

Lemma filter_keeps_all {A} (f : A -> bool) (l : list A) :
  Forall (fun x => f x = true) l -> List.filter f l = l.
Proof.
  induction 1 as [|x l Hx _ IH]; simpl; [reflexivity|].
  now rewrite Hx, IH.
Qed.

Lemma le_neq_compare_gt (a b : string) :
  String.le b a -> a <> b -> String.compare a b = Gt.
Proof.
  unfold String.le, String.leb. intros Hle Hne.
  rewrite String.compare_antisym.
  destruct (String.compare b a) eqn:E; simpl in *; try reflexivity.
  - apply String.compare_eq_iff in E. congruence.
  - contradiction.
Qed.

#[local] Instance string_ge_trans : Transitive (flip String.le).
Proof. intros a b c Hab Hbc. unfold flip in *. now transitivity b. Qed.

#[local] Instance string_ge_total : Total (flip String.le).
Proof. intros a b. unfold flip. destruct (total String.le a b); auto. Qed.

(** [sort(reverse=True)] returns the same names, largest first. *)
Lemma sort_reverse_sorted (l : list string) :
  Permutation (sort_reverse l) l /\
  StronglySorted (flip String.le) (sort_reverse l).
Proof.
  unfold sort_reverse. split.
  - apply merge_sort_Permutation.
  - apply StronglySorted_merge_sort; apply _.
Qed.

(** Distinct file names of valid stamps, in descending string order, are
    in strictly descending order of time. *)
Lemma descending_names_newest_first (l : list datetime) :
  Forall valid l ->
  List.NoDup (map basename l) ->
  StronglySorted (flip String.le) (map basename l) ->
  StronglySorted newer l.
Proof.
  induction l as [|x l IH]; intros Hv Hnd Hs; [constructor|].
  inversion Hv as [|? ? Hx Hl]; subst.
  inversion Hnd as [|? ? Hnotin Hnd']; subst.
  inversion Hs as [|? ? Hs' Hall]; subst.
  constructor; [now apply IH|].
  rewrite List.Forall_forall in *. intros y Hy.
  unfold newer. rewrite <- basename_compare by auto.
  apply le_neq_compare_gt.
  - apply (Hall (basename y)). now apply in_map.
  - intros E. apply Hnotin. rewrite E. now apply in_map.
Qed.

(** C6.  A directory whose entries are the files saved at the valid
    stamps [stamps], listed by [os.listdir] in any order: the enumeration
    returns every one of them, each once, in strictly descending order of
    the time stamp in the name. *)
Theorem saved_recordings_newest_first
    (stamps : list datetime) (listing : list string) :
  Forall valid stamps ->
  List.NoDup listing ->
  Permutation listing (map basename stamps) ->
  exists ordered,
    saved_recordings listing = map basename ordered /\
    Permutation ordered stamps /\
    StronglySorted newer ordered.
Proof.
  intros Hv Hnd Hperm. unfold saved_recordings.
  rewrite filter_keeps_all.
  2:{ rewrite List.Forall_forall. intros f Hf.
      apply (Permutation_in _ Hperm) in Hf.
      apply in_map_iff in Hf as (d & <- & _). apply basename_endswith_wav. }
  destruct (sort_reverse_sorted listing) as (Hp & Hs).
  assert (Hp' : Permutation (sort_reverse listing) (map basename stamps))
    by (etransitivity; eassumption).
  destruct (Permutation_map_inv _ _ Hp') as (ordered & Heq & Hord).
  exists ordered. split; [exact Heq|]. split; [now symmetry|].
  apply descending_names_newest_first.
  - rewrite List.Forall_forall in *. intros d Hd. apply Hv.
    now apply (Permutation_in _ (Permutation_sym Hord)).
  - rewrite <- Heq. apply (Permutation_NoDup (Permutation_sym Hp)), Hnd.
  - now rewrite <- Heq.
Qed.

Lemma saved_recordings_newest_first_witness :
  Forall valid [noon_sharp; next_second; evening] /\
  List.NoDup [basename next_second; basename evening; basename noon_sharp] /\
  exists ordered,
    saved_recordings [basename next_second; basename evening;
                      basename noon_sharp]
    = map basename ordered /\
    StronglySorted newer ordered.
Proof.
  assert (Hv : Forall valid [noon_sharp; next_second; evening])
    by (repeat constructor; simpl; lia).
  assert (Hnd : List.NoDup [basename next_second; basename evening;
                            basename noon_sharp])
    by (repeat constructor; simpl; intuition discriminate).
  assert (Hp : Permutation
                 [basename next_second; basename evening; basename noon_sharp]
                 (map basename [noon_sharp; next_second; evening]))
    by apply Permutation_sym,
         (Permutation_cons_append [basename next_second; basename evening]).
  split; [exact Hv|]. split; [exact Hnd|].
  destruct (saved_recordings_newest_first _ _ Hv Hnd Hp)
    as (ordered & Heq & _ & Hs).
  exists ordered. split; assumption.
Defined.

End Listing.

(** ** The action-items table *)

Section Table.
Import PyVal App.

Lemma all_str_ok (l : list pyval) :
  forallb is_str l = true -> exists ss, all_str l = Ok ss.
Proof.
  induction l as [|v l IH]; simpl; [eauto|].
  intros H. apply andb_prop in H as (Hv & Hl).
  destruct v; try discriminate. destruct (IH Hl) as (ss & ->). eauto.
Qed.

Lemma join_str_list (sep : string) (v : pyval) :
  is_str_list v = true -> exists s, PyVal.join sep v = Ok s.
Proof.
  destruct v; try discriminate. simpl. intros H.
  unfold PyVal.join. simpl. destruct (all_str_ok _ H) as (ss & ->). eauto.
Qed.

(** A well-shaped action item yields a row, whose priority is a string. *)
Lemma action_row_ok (item : pyval) :
  action_item_shape item = true ->
  exists r, action_row item = Ok r /\ is_str (Priority r) = true.
Proof.
  unfold action_item_shape, has, action_row. intros H.
  repeat (apply andb_prop in H as (H & ?)).
  destruct (getitem item "task"); try discriminate.
  destruct (getitem item "assignee"); try discriminate.
  destruct (getitem item "deadline"); try discriminate.
  destruct (getitem item "priority") as [p|]; try discriminate.
  destruct (getitem item "dependencies") as [d|]; try discriminate.
  destruct (join_str_list ", " d) as (s & ->); [assumption|].
  eexists; split; [reflexivity | assumption].
Qed.

Lemma collect_ok {A B} (f : A -> outcome B) (good : B -> Prop) (l : list A) :
  Forall (fun x => exists y, f x = Ok y /\ good y) l ->
  exists ys, collect f l = Ok ys /\ length ys = length l /\ Forall good ys.
Proof.
  induction 1 as [|x l (y & Hy & Hg) _ (ys & IH & Hlen & Hall)]; simpl.
  - exists []. repeat split. constructor.
  - rewrite Hy, IH. exists (y :: ys). simpl. repeat split; auto.
Qed.

Lemma lower_char_idempotent (c : ascii) :
  PyStr.lower_char (PyStr.lower_char c) = PyStr.lower_char c.
Proof. destruct c as [[] [] [] [] [] [] [] []]; reflexivity. Qed.

Lemma lower_idempotent (s : string) :
  PyStr.lower (PyStr.lower s) = PyStr.lower s.
Proof.
  induction s as [|c s IH]; simpl; [reflexivity|].
  now rewrite lower_char_idempotent, IH.
Qed.

Lemma colors_get_other (key : string) :
  key <> "high" -> key <> "medium" -> key <> "low" ->
  colors_get key colors = "".
Proof.
  intros H1 H2 H3. unfold colors. cbn [colors_get].
  apply String.eqb_neq in H1, H2, H3. now rewrite H1, H2, H3.
Qed.

(** C8, the counterexample.  ["HIGH"] is a priority string other than
    [high], [medium] and [low], and it is highlighted. *)
Lemma upper_case_priority_is_highlighted :
  "HIGH" <> "high" /\ "HIGH" <> "medium" /\ "HIGH" <> "low" /\
  color_priority (PStr "HIGH") = Ok "background-color: #ffcccc".
Proof. repeat split; discriminate. Qed.

(** C8, as the code has it.  For an analysis whose [action_items] is a
    list of well-shaped items, the table part draws its subheader and,
    unless the list is empty, one table with as many rows (and as many
    priority styles) as there are items.  The highlight never raises on a
    string; it depends on the lower-cased priority only, gives [high],
    [medium] and [low] their three colours and every string whose
    lower-case form is none of these the empty style. *)
Theorem action_items_table_rows
    (analysis : pyval) (items : list pyval) (w : world) :
  getitem analysis "action_items" = Ok (PList items) ->
  forallb action_item_shape items = true ->
  (exists rows styles,
     action_items_table analysis w
     = (Ok tt,
        World (state w) (disk w)
              (page w ++ Subheader "Action Items Tracker"
                         :: match items with
                            | [] => []
                            | _ :: _ => [Dataframe rows styles]
                            end)%list) /\
     length rows = length items /\ length styles = length items) /\
  color_of "high" = "background-color: #ffcccc" /\
  color_of "medium" = "background-color: #ffffcc" /\
  color_of "low" = "background-color: #ccffcc" /\
  (forall s, color_priority (PStr s) = Ok (color_of s)) /\
  (forall s, color_of s = color_of (PyStr.lower s)) /\
  (forall s, PyStr.lower s <> "high" -> PyStr.lower s <> "medium" ->
             PyStr.lower s <> "low" -> color_of s = "").
Proof.
  intros Hget Hshape. split.
  - assert (Hrows : exists rows,
               collect action_row items = Ok rows /\
               length rows = length items /\
               Forall (fun r => is_str (Priority r) = true) rows).
    { apply collect_ok. rewrite forallb_forall in Hshape.
      rewrite List.Forall_forall. intros x Hx.
      now apply action_row_ok, Hshape. }
    destruct Hrows as (rows & Hrows & Hlen & Hprio).
    assert (Hstyles : exists styles,
               collect (fun r => color_priority (Priority r)) rows = Ok styles
               /\ length styles = length rows /\ Forall (fun _ => True) styles).
    { apply collect_ok. rewrite List.Forall_forall in *. intros r Hr.
      specialize (Hprio r Hr). destruct (Priority r); try discriminate.
      simpl. eauto. }
    destruct Hstyles as (styles & Hstyles & Hlen' & _).
    exists rows, styles. split; [|split; congruence].
    unfold action_items_table, bind, emit, lift. simpl.
    rewrite Hget. simpl. rewrite Hrows.
    destruct rows as [|r rows]; destruct items as [|i items];
      try discriminate; simpl; [reflexivity|].
    simpl in Hstyles. unfold bind. rewrite Hstyles. simpl.
    now rewrite <- List.app_assoc.
  - repeat split; try reflexivity.
    + intros s. unfold color_of. now rewrite lower_idempotent.
    + intros s. apply colors_get_other.
Qed.

Lemma action_items_table_rows_witness :
  getitem sample_analysis "action_items"
  = Ok (PList [PDict [("task", PStr "Draft the campaign");
                      ("assignee", PStr "Sam");
                      ("deadline", PStr "Tuesday");
                      ("priority", PStr "High");
                      ("dependencies", PList [PStr "budget"])]]) /\
  color_of "High" = color_of "high".
Proof.
  split; [reflexivity|].
  destruct (action_items_table_rows sample_analysis _ first_load
              eq_refl eq_refl)
    as (_ & _ & _ & _ & _ & Hlow & _).
  rewrite (Hlow "High"). reflexivity.
Defined.

End Table.

(** ** The diagram *)

Section Diagram.
Import PyVal App Runs.

Lemma declaration_has_no_style (d : string) :
  PyStr.contains "style" ("graph TD" ++ nl ++ d) = PyStr.contains "style" d.
Proof. unfold nl. rewrite !app_String, app_empty. reflexivity. Qed.


Lemma flow_diagram_str (e : env) (analysis : pyval) (d : string) (w : world) :
  getitem analysis "mermaid_diagram" = Ok (PStr d) ->
  fallback_ok e = true ->
  flow_diagram e analysis w
  = (Ok tt,
     World (state w) (disk w)
           (page w ++ Subheader "Meeting Flow Visualization"
                      :: Expander "Meeting Flow Diagram" true
                      :: if diagram_ok e
                         then [Mermaid (normalize_diagram d) 600; Info legend]
                         else [Error [Lit "Error rendering diagram. Using simplified version..."];
                               Mermaid fallback_diagram 400])%list).
Proof.
  intros Hget Hfb.
  unfold flow_diagram, bind, emit, try_except, lift, st_mermaid, raise.
  simpl. rewrite Hget, Hfb.
  destruct (diagram_ok e); simpl; unfold emit; simpl;
    rewrite <- !List.app_assoc; reflexivity.
Qed.

Lemma for_each_decisions (numbered : list (Z * pyval)) (w : world) :
  for_each numbered
    (fun '(idx, decision) =>
       emit (Markdown [Lit "**"; Val (PInt idx); Lit ".** "; Val decision]))
    w
  = (Ok tt,
     World (state w) (disk w) (page w ++ map decision_line numbered)%list).
Proof.
  revert w; induction numbered as [|[idx x] l IH]; intros w; simpl.
  - now rewrite app_nil_r, world_eta.
  - unfold bind. simpl. rewrite IH. simpl. now rewrite <- List.app_assoc.
Qed.

Lemma key_decisions_draws
    (analysis ds : pyval) (items : list pyval) (w : world) :
  getitem analysis "key_decisions" = Ok ds ->
  iterate ds = Ok items ->
  key_decisions analysis w
  = (Ok tt,
     World (state w) (disk w)
           (page w ++ Expander "Key Decisions" true
                      :: map decision_line (enumerate 1 items))%list).
Proof.
  intros Hget Hit.
  unfold key_decisions, bind at 1, emit at 1.
  unfold bind at 1, lift. rewrite Hget.
  unfold bind at 1. rewrite Hit.
  rewrite for_each_decisions. cbn [state disk page].
  now rewrite <- List.app_assoc.
Qed.





End Diagram.

(* ================================================================== *)
(** * Further properties of the script *)

(** ** How a run is put together *)

Section RunStructure.
Import Stamp Audio PyVal App Runs.

Lemma bind_assoc_at {A B C} (m : M A) (k : A -> M B) (h : B -> M C)
    (w : world) :
  bind (bind m k) h w = bind m (fun x => bind (k x) h) w.
Proof. unfold bind. destruct (m w) as [[a|ex] w1]; reflexivity. Qed.

(** A run is the heading, the two handlers, and the display. *)
Lemma rerun_handlers (e : env) (c : click) (w : world) :
  rerun e c w
  = bind (handlers e c) (fun _ => display e)
         (World (state w) (disk w) heading).
Proof.
  unfold handlers. rewrite bind_assoc_at.
  unfold rerun, script, bind at 1 2. reflexivity.
Qed.

(** The session and the disk after a run are those the handlers leave. *)
Lemma rerun_state_disk (e : env) (c : click) (w : world) :
  state (snd (rerun e c w))
  = state (snd (handlers e c (World (state w) (disk w) heading))) /\
  disk (snd (rerun e c w))
  = disk (snd (handlers e c (World (state w) (disk w) heading))).
Proof.
  rewrite rerun_handlers. unfold bind.
  destruct (handlers e c (World (state w) (disk w) heading))
    as [[[]|ex] w1]; simpl; [|split; reflexivity].
  destruct (display_draws e w1) as (Hs & Hd & _). now split.
Qed.

Lemma handlers_no_click (e : env) (w : world) :
  handlers e NoClick w = (Ok tt, w).
Proof.
  unfold handlers, bind.
  rewrite start_recording_other by reflexivity.
  now rewrite stop_recording_other.
Qed.

Lemma handlers_start (e : env) (w : world) :
  handlers e ClickStart w = start_recording e ClickStart w.
Proof.
  unfold handlers, bind.
  destruct (start_recording e ClickStart w) as [[[]|ex] w1]; [|reflexivity].
  now rewrite stop_recording_other.
Qed.

Lemma handlers_stop (e : env) (w : world) :
  handlers e ClickStop w = stop_recording e ClickStop w.
Proof.
  unfold handlers, bind.
  now rewrite start_recording_other.
Qed.

(** *** What Start does *)

Lemma start_recording_opens (e : env) (w : world) (signal : Z -> Q) :
  is_recording (state w) = false ->
  microphone e = Some signal ->
  start_recording e ClickStart w
  = (Ok tt,
     World (set_recorder (Some (NdArray max_frames signal))
              (set_recording_started true
                 (set_start_time (Some (clock e))
                    (set_is_recording true (state w)))))
           (disk w)
           (page w ++ [Info "Recording... Click 'Stop Recording' when finished."])%list).
Proof.
  intros Hi Hm.
  unfold start_recording, bind, get, record_audio_stream. simpl.
  now rewrite Hi, Hm.
Qed.

Lemma start_recording_no_device (e : env) (w : world) :
  is_recording (state w) = false ->
  microphone e = None ->
  start_recording e ClickStart w
  = (Raise DeviceError,
     World (set_recording_started true
              (set_start_time (Some (clock e))
                 (set_is_recording true (state w))))
           (disk w) (page w)).
Proof.
  intros Hi Hm.
  unfold start_recording, bind, get, record_audio_stream. simpl.
  now rewrite Hi, Hm.
Qed.

(** *** What Stop does, branch by branch *)

Lemma stop_recording_storage_error
    (e : env) (w : world) (rec : ndarray) (t0 : Q) :
  is_recording (state w) = true ->
  recorder (state w) = Some rec ->
  start_time (state w) = Some t0 ->
  write_ok e = false ->
  stop_recording e ClickStop w
  = (Raise StorageError,
     World (set_elapsed_time (Some (round e (clock e - t0)))
              (set_is_recording false (state w)))
           (disk w) (page w)).
Proof.
  intros Hi Hr Ht Hw. unfold stop_recording, bind at 1, get.
  rewrite Hi, Hr, Ht. simpl.
  unfold bind at 1 2 3. simpl. unfold bind at 1.
  unfold save_audio, bind, sf_write. now rewrite Hw.
Qed.

Lemma process_recording_not_heard (e : env) (f : string) (w : world) :
  heard e = None ->
  process_recording e f w
  = (Raise TranscriptionError,
     World (state w) (disk w)
           (page w ++ [Spinner "Transcribing audio..."])%list).
Proof.
  intros Hh. unfold process_recording, bind, emit, transcribe, raise.
  now rewrite Hh.
Qed.

(** *** The same, when the reply is run as code *)

(** The runs over [App.eval] are the runs in which evaluating the reply
    does nothing but return or raise what the surroundings say. *)
Lemma rerun_is_live (e : env) (c : click) (w : world) :
  Live.rerun (App.eval e) e c w = rerun e c w.
Proof. reflexivity. Qed.

Lemma live_stop_recording_other
    (eval : Live.evaluation) (e : env) (c : click) (w : world) :
  stop_button c = false -> Live.stop_recording eval e c w = (Ok tt, w).
Proof. intros H. unfold Live.stop_recording, bind, get. now rewrite H. Qed.

Lemma live_stop_recording_idle
    (eval : Live.evaluation) (e : env) (c : click) (w : world) :
  is_recording (state w) = false ->
  Live.stop_recording eval e c w = (Ok tt, w).
Proof.
  intros H. unfold Live.stop_recording, bind, get. rewrite H.
  now rewrite andb_false_r.
Qed.

Lemma live_stop_recording_stuck
    (eval : Live.evaluation) (e : env) (w : world) :
  is_recording (state w) = true ->
  recorder (state w) = None ->
  Live.stop_recording eval e ClickStop w
  = (Ok tt, World (state w) (disk w) (page w ++ [idle_notice])%list).
Proof.
  intros H Hr. unfold Live.stop_recording, bind, get. simpl.
  now rewrite H, Hr.
Qed.

Lemma live_stop_recording_no_start_time
    (eval : Live.evaluation) (e : env) (w : world) (rec : ndarray) :
  is_recording (state w) = true ->
  recorder (state w) = Some rec ->
  start_time (state w) = None ->
  Live.stop_recording eval e ClickStop w
  = (Raise TypeError,
     World (set_is_recording false (state w)) (disk w) (page w)).
Proof.
  intros Hi Hr Ht. unfold Live.stop_recording, bind at 1, get.
  rewrite Hi, Hr, Ht. reflexivity.
Qed.

Lemma live_stop_recording_storage_error
    (eval : Live.evaluation) (e : env) (w : world) (rec : ndarray) (t0 : Q) :
  is_recording (state w) = true ->
  recorder (state w) = Some rec ->
  start_time (state w) = Some t0 ->
  write_ok e = false ->
  Live.stop_recording eval e ClickStop w
  = (Raise StorageError,
     World (set_elapsed_time (Some (round e (clock e - t0)))
              (set_is_recording false (state w)))
           (disk w) (page w)).
Proof.
  intros Hi Hr Ht Hw. unfold Live.stop_recording, bind at 1, get.
  rewrite Hi, Hr, Ht. simpl.
  unfold bind at 1 2 3. simpl. unfold bind at 1.
  unfold save_audio, bind, sf_write. now rewrite Hw.
Qed.

Lemma live_process_recording_not_heard
    (eval : Live.evaluation) (e : env) (f : string) (w : world) :
  heard e = None ->
  Live.process_recording eval e f w
  = (Raise TranscriptionError,
     World (state w) (disk w)
           (page w ++ [Spinner "Transcribing audio..."])%list).
Proof.
  intros Hh. unfold Live.process_recording, bind, emit, transcribe, raise.
  now rewrite Hh.
Qed.

Lemma live_process_recording_no_reply
    (eval : Live.evaluation) (e : env) (f t : string) (w : world) :
  heard e = Some t -> reply e = None ->
  Live.process_recording eval e f w
  = (Ok tt,
     World (set_recorder None (set_last_transcription t (state w)))
           (disk w)
           (page w ++ [Spinner "Transcribing audio...";
                       Spinner "Analyzing meeting content...";
                       Error [Lit "Error analyzing meeting content: ";
                              ExcText AnalysisTransportError];
                       Success "Analysis complete!"])%list).
Proof.
  intros Hh Hr.
  unfold Live.process_recording, bind, emit, transcribe, modify, try_except,
    generate_meeting_summary, ret, raise.
  rewrite Hh, Hr. simpl. now rewrite <- !app_assoc.
Qed.

Lemma live_rerun_handlers
    (eval : Live.evaluation) (e : env) (c : click) (w : world) :
  Live.rerun eval e c w
  = bind (Live.handlers eval e c) (fun _ => display e)
         (World (state w) (disk w) heading).
Proof.
  unfold Live.handlers. rewrite bind_assoc_at.
  unfold Live.rerun, Live.script, bind at 1 2. reflexivity.
Qed.

Lemma live_rerun_state_disk
    (eval : Live.evaluation) (e : env) (c : click) (w : world) :
  state (snd (Live.rerun eval e c w))
  = state (snd (Live.handlers eval e c (World (state w) (disk w) heading)))
  /\
  disk (snd (Live.rerun eval e c w))
  = disk (snd (Live.handlers eval e c (World (state w) (disk w) heading))).
Proof.
  rewrite live_rerun_handlers. unfold bind.
  destruct (Live.handlers eval e c (World (state w) (disk w) heading))
    as [[[]|ex] w1]; simpl; [|split; reflexivity].
  destruct (display_draws e w1) as (Hs & Hd & _). now split.
Qed.

Lemma live_handlers_no_click
    (eval : Live.evaluation) (e : env) (w : world) :
  Live.handlers eval e NoClick w = (Ok tt, w).
Proof.
  unfold Live.handlers, bind.
  rewrite start_recording_other by reflexivity.
  now rewrite live_stop_recording_other.
Qed.

Lemma live_handlers_start
    (eval : Live.evaluation) (e : env) (w : world) :
  Live.handlers eval e ClickStart w = start_recording e ClickStart w.
Proof.
  unfold Live.handlers, bind.
  destruct (start_recording e ClickStart w) as [[[]|ex] w1]; [|reflexivity].
  now rewrite live_stop_recording_other.
Qed.

Lemma live_handlers_stop
    (eval : Live.evaluation) (e : env) (w : world) :
  Live.handlers eval e ClickStop w = Live.stop_recording eval e ClickStop w.
Proof.
  unfold Live.handlers, bind.
  now rewrite start_recording_other.
Qed.

End RunStructure.

(** ** Runs that start, stop or only redraw *)

Section Cycle.
Import Stamp Audio PyVal App Runs.

Lemma display_draws_own (e : env) : draws_only display_element (display e).
Proof.
  unfold display, recording_banner, show_transcription, dashboard, panels,
    executive_summary, key_decisions, action_items_table, flow_diagram,
    st_mermaid, playback, show_saved_recordings.
  draw; simpl; auto.
Qed.

Lemma rerun_raises (e : env) (c : click) (w : world) (ex : exn) :
  fst (handlers e c (World (state w) (disk w) heading)) = Raise ex ->
  fst (rerun e c w) = Raise ex.
Proof.
  intros H. rewrite rerun_handlers. unfold bind.
  destruct (handlers e c (World (state w) (disk w) heading))
    as [[[]|ex'] w1]; simpl in *; [discriminate | assumption].
Qed.

(** The page of a run: the heading, what the handlers drew, what the
    display drew. *)
Lemma rerun_page (e : env) (c : click) (w : world) :
  exists drawn,
    page (snd (rerun e c w))
    = (page (snd (handlers e c (World (state w) (disk w) heading)))
       ++ drawn)%list /\
    Forall display_element drawn.
Proof.
  rewrite rerun_handlers. unfold bind.
  destruct (handlers e c (World (state w) (disk w) heading))
    as [[[]|ex] w1]; simpl.
  - destruct (display_draws_own e w1) as (_ & _ & added & Hp & HP).
    now exists added.
  - exists []. split; [now rewrite app_nil_r | constructor].
Qed.

(** X1.  A run in which no button is pressed redraws the page and changes
    neither the session nor the disk, whatever the session holds and
    whether or not the dashboard raises. *)
Theorem redraw_changes_nothing (e : env) (w : world) :
  state (snd (rerun e NoClick w)) = state w /\
  disk (snd (rerun e NoClick w)) = disk w.
Proof.
  destruct (rerun_state_disk e NoClick w) as (-> & ->).
  now rewrite handlers_no_click.
Qed.

(** X2.  Start pressed while a recording is in progress: the session and
    the disk stay as they are (the buffer in flight is not replaced, the
    start time is not reset), and the "Recording..." notice of line 164 is
    not drawn. *)
Theorem start_while_recording_is_ignored (e : env) (w : world) :
  is_recording (state w) = true ->
  state (snd (rerun e ClickStart w)) = state w /\
  disk (snd (rerun e ClickStart w)) = disk w /\
  ~ In (Info "Recording... Click 'Stop Recording' when finished.")
       (page (snd (rerun e ClickStart w))).
Proof.
  intros Hi.
  destruct (rerun_state_disk e ClickStart w) as (-> & ->).
  destruct (rerun_page e ClickStart w) as (drawn & -> & Hd).
  rewrite handlers_start, start_recording_busy by exact Hi.
  simpl. repeat split.
  intros [E|[E|Hin]]; try discriminate.
  rewrite List.Forall_forall in Hd. apply Hd in Hin. discriminate.
Qed.

Lemma start_while_recording_is_ignored_witness :
  is_recording (state recording_world) = true /\
  state (snd (rerun (at_clock 150) ClickStart recording_world))
  = state recording_world.
Proof.
  split; [reflexivity|].
  apply (start_while_recording_is_ignored (at_clock 150) recording_world).
  reflexivity.
Defined.

Lemma live_rerun_page
    (eval : Live.evaluation) (e : env) (c : click) (w : world) :
  exists drawn,
    page (snd (Live.rerun eval e c w))
    = (page (snd (Live.handlers eval e c
                    (World (state w) (disk w) heading)))
       ++ drawn)%list /\
    Forall display_element drawn.
Proof.
  rewrite live_rerun_handlers. unfold bind.
  destruct (Live.handlers eval e c (World (state w) (disk w) heading))
    as [[[]|ex] w1]; simpl.
  - destruct (display_draws_own e w1) as (_ & _ & added & Hp & HP).
    now exists added.
  - exists []. split; [now rewrite app_nil_r | constructor].
Qed.

(** X3.  Start on an idle page with a working device, then Stop with a
    writable disk, a transcript and a reply whose evaluation gives a value
    and changes nothing: the flag is false again and the recorder is
    released, the elapsed time is the difference of the two clock
    readings, the slice of the buffer is on disk under the name of the
    stop time, and the session holds that name, the transcript and the
    value of the reply. *)
Theorem start_then_stop
    (eval1 eval2 : Live.evaluation) (e1 e2 : env) (w : world)
    (signal : Z -> Q) (t r : string) (v : pyval) :
  is_recording (state w) = false ->
  microphone e1 = Some signal ->
  write_ok e2 = true ->
  heard e2 = Some t -> reply e2 = Some r ->
  (forall w0, eval2 r w0 = (Ok v, w0)) ->
  let d := round e2 (clock e2 - clock e1) in
  let w2 := snd (Live.rerun eval2 e2 ClickStop
                   (snd (Live.rerun eval1 e1 ClickStart w))) in
  is_recording (state w2) = false /\
  recorder (state w2) = None /\
  elapsed_time (state w2) = Some d /\
  last_recording (state w2) = Some (filename (today e2)) /\
  last_transcription (state w2) = Some t /\
  last_analysis (state w2) = Some v /\
  read (filename (today e2)) (disk w2)
  = Some (Wav (take (NdArray max_frames signal) (elapsed_frames e2 d)) 44100).
Proof.
  intros Hi Hm Hw Hh Hr Hv d w2. unfold w2.
  destruct (live_rerun_state_disk eval2 e2 ClickStop
              (snd (Live.rerun eval1 e1 ClickStart w))) as (-> & ->).
  destruct (live_rerun_state_disk eval1 e1 ClickStart w) as (-> & ->).
  rewrite live_handlers_start, (start_recording_opens e1 _ signal)
    by assumption.
  cbn [snd state disk]. rewrite live_handlers_stop.
  rewrite (live_stop_recording_saves eval2 e2 _ (NdArray max_frames signal)
             (clock e1))
    by (try reflexivity; assumption).
  rewrite (live_process_recording_heard eval2 e2 _ t r) by assumption.
  rewrite Hv. cbn [snd state disk]. repeat split. apply read_write_same.
Qed.

Lemma start_then_stop_witness :
  is_recording (state first_load) = false /\
  last_analysis
    (state (snd (Live.rerun (Live.literal sample_analysis) (at_clock 130.5)
                   ClickStop
                   (snd (Live.rerun (Live.literal sample_analysis) studio
                           ClickStart first_load)))))
  = Some sample_analysis.
Proof.
  split; [reflexivity|].
  apply (start_then_stop (Live.literal sample_analysis)
           (Live.literal sample_analysis) studio (at_clock 130.5) first_load
           silence "We launch in May." sample_reply sample_analysis
           eq_refl eq_refl eq_refl eq_refl eq_refl (fun w0 => eq_refl)).
Defined.

End Cycle.

(** ** Stop, when a collaborator fails *)

Section Failures.
Import Stamp Audio PyVal App Runs.

(** X4.  Stop on a running capture when [sf.write] fails: the run ends
    in the storage error with nothing written and [last_recording] as it
    was, but the flag is already false while the buffer is still in the
    session; so a second Stop does nothing, and the captured audio can no
    longer be saved. *)
Theorem storage_failure_strands_the_buffer
    (e e' : env) (w : world) (rec : ndarray) (t0 : Q) :
  is_recording (state w) = true ->
  recorder (state w) = Some rec ->
  start_time (state w) = Some t0 ->
  write_ok e = false ->
  let w1 := snd (rerun e ClickStop w) in
  fst (rerun e ClickStop w) = Raise StorageError /\
  disk w1 = disk w /\
  last_recording (state w1) = last_recording (state w) /\
  is_recording (state w1) = false /\
  recorder (state w1) = Some rec /\
  state (snd (rerun e' ClickStop w1)) = state w1 /\
  disk (snd (rerun e' ClickStop w1)) = disk w.
Proof.
  intros Hi Hr Ht Hw w1.
  assert (Hh : handlers e ClickStop (World (state w) (disk w) heading)
               = (Raise StorageError,
                  World (set_elapsed_time (Some (round e (clock e - t0)))
                           (set_is_recording false (state w)))
                        (disk w) heading)).
  { rewrite handlers_stop.
    now rewrite (stop_recording_storage_error e _ rec t0). }
  assert (Hs1 : state w1 = set_elapsed_time (Some (round e (clock e - t0)))
                             (set_is_recording false (state w)))
    by (unfold w1; destruct (rerun_state_disk e ClickStop w) as (-> & _);
        now rewrite Hh).
  assert (Hd1 : disk w1 = disk w)
    by (unfold w1; destruct (rerun_state_disk e ClickStop w) as (_ & ->);
        now rewrite Hh).
  split; [apply rerun_raises; now rewrite Hh|].
  split; [exact Hd1|].
  rewrite Hs1. cbn [last_recording is_recording recorder set_elapsed_time
                    set_is_recording]. repeat split; auto.
  - destruct (rerun_state_disk e' ClickStop w1) as (-> & _).
    rewrite handlers_stop, stop_recording_idle by (simpl; now rewrite Hs1).
    simpl. now rewrite Hs1.
  - destruct (rerun_state_disk e' ClickStop w1) as (_ & ->).
    rewrite handlers_stop, stop_recording_idle by (simpl; now rewrite Hs1).
    exact Hd1.
Qed.

Lemma storage_failure_strands_the_buffer_witness :
  write_ok disk_full = false /\
  fst (rerun disk_full ClickStop recording_world) = Raise StorageError.
Proof.
  split; [reflexivity|].
  apply (storage_failure_strands_the_buffer disk_full studio recording_world
           (NdArray max_frames silence) 100 eq_refl eq_refl eq_refl eq_refl).
Defined.

(** X5.  Stop on a running capture when the speech model fails: the run
    ends in the transcription error after the file has been written and
    recorded as [last_recording]; the transcript and the analysis of the
    session are left as they were, the flag is false and the buffer stays
    in the session. *)
Theorem transcription_failure_keeps_the_file
    (e : env) (w : world) (rec : ndarray) (t0 : Q) :
  is_recording (state w) = true ->
  recorder (state w) = Some rec ->
  start_time (state w) = Some t0 ->
  write_ok e = true ->
  heard e = None ->
  let w1 := snd (rerun e ClickStop w) in
  fst (rerun e ClickStop w) = Raise TranscriptionError /\
  read (filename (today e)) (disk w1)
  = Some (Wav (take rec (elapsed_frames e (round e (clock e - t0)))) 44100) /\
  last_recording (state w1) = Some (filename (today e)) /\
  last_transcription (state w1) = last_transcription (state w) /\
  last_analysis (state w1) = last_analysis (state w) /\
  is_recording (state w1) = false /\
  recorder (state w1) = Some rec.
Proof.
  intros Hi Hr Ht Hw Hh w1.
  pose proof (handlers_stop e (World (state w) (disk w) heading)) as Hhs.
  rewrite (stop_recording_saves e _ rec t0) in Hhs by assumption.
  rewrite process_recording_not_heard in Hhs by assumption.
  cbn [state disk page] in Hhs.
  split; [apply rerun_raises; now rewrite Hhs|].
  unfold w1. destruct (rerun_state_disk e ClickStop w) as (-> & ->).
  rewrite Hhs. cbn [snd state disk].
  split; [apply read_write_same|]. now repeat split.
Qed.

Lemma transcription_failure_keeps_the_file_witness :
  heard deaf = None /\
  last_recording (state (snd (rerun deaf ClickStop recording_world)))
  = Some (filename (today deaf)).
Proof.
  split; [reflexivity|].
  apply (transcription_failure_keeps_the_file deaf recording_world
           (NdArray max_frames silence) 100
           eq_refl eq_refl eq_refl eq_refl eq_refl).
Defined.

(** X6.  Stop on a running capture whose save and transcription
    succeed.  When the analyzer call itself raises, the error is caught
    and drawn and the stored analysis is left as it was.  When the
    analyzer answers, the reply is evaluated in the world [asked], which
    already holds the file and the transcript, and the handler goes on
    from the world the evaluation leaves: a value is stored as the
    analysis, an [Exception] is caught and drawn, and in both cases
    "Analysis complete!" is drawn and the recorder released.  An exception
    outside [Exception] is not caught: the handler ends in it at once,
    with no notice, no "Analysis complete!" and the recorder still in the
    session. *)
Theorem analysis_errors_in_the_handler
    (eval : Live.evaluation) (e : env) (w : world) (rec : ndarray) (t0 : Q)
    (t : string) :
  is_recording (state w) = true ->
  recorder (state w) = Some rec ->
  start_time (state w) = Some t0 ->
  write_ok e = true ->
  heard e = Some t ->
  let d := round e (clock e - t0) in
  let asked :=
    World (set_last_transcription t
             (set_last_recording (filename (today e))
                (set_elapsed_time (Some d)
                   (set_is_recording false (state w)))))
          (write (filename (today e))
                 (Wav (take rec (elapsed_frames e d)) 44100) (disk w))
          (page w ++ [Success "Recording saved!";
                      Spinner "Transcribing audio...";
                      Spinner "Analyzing meeting content..."])%list in
  let result := Live.stop_recording eval e ClickStop w in
  (reply e = None ->
   result
   = (Ok tt,
      World (set_recorder None (state asked)) (disk asked)
            (page asked
             ++ [Error [Lit "Error analyzing meeting content: ";
                        ExcText AnalysisTransportError];
                 Success "Analysis complete!"])%list)) /\
  (forall r v after,
     reply e = Some r -> eval r asked = (Ok v, after) ->
     result
     = (Ok tt,
        World (set_recorder None (set_last_analysis v (state after)))
              (disk after)
              (page after ++ [Success "Analysis complete!"])%list)) /\
  (forall r ex after,
     reply e = Some r -> eval r asked = (Raise ex, after) ->
     is_exception ex = true ->
     result
     = (Ok tt,
        World (set_recorder None (state after)) (disk after)
              (page after
               ++ [Error [Lit "Error analyzing meeting content: ";
                          ExcText ex];
                   Success "Analysis complete!"])%list)) /\
  (forall r ex after,
     reply e = Some r -> eval r asked = (Raise ex, after) ->
     is_exception ex = false ->
     result = (Raise ex, after)).
Proof.
  intros Hi Hr Ht Hw Hh d asked result. unfold result.
  rewrite (live_stop_recording_saves eval e w rec t0) by assumption.
  fold d. split; [|split; [|split]].
  - intros Hre. rewrite (live_process_recording_no_reply eval e _ t)
      by assumption.
    unfold asked. cbn [state disk page].
    now rewrite <- !List.app_assoc.
  - intros r v after Hre Hev.
    rewrite (live_process_recording_heard eval e _ t r) by assumption.
    cbn [state disk page]. rewrite <- List.app_assoc. cbn [List.app].
    fold asked. now rewrite Hev.
  - intros r ex after Hre Hev Hex.
    rewrite (live_process_recording_heard eval e _ t r) by assumption.
    cbn [state disk page]. rewrite <- List.app_assoc. cbn [List.app].
    fold asked. now rewrite Hev, Hex.
  - intros r ex after Hre Hev Hex.
    rewrite (live_process_recording_heard eval e _ t r) by assumption.
    cbn [state disk page]. rewrite <- List.app_assoc. cbn [List.app].
    fold asked. now rewrite Hev, Hex.
Qed.

Lemma analysis_errors_in_the_handler_witness :
  heard (at_clock 130.5) = Some "We launch in May." /\
  fst (Live.stop_recording Live.exits (at_clock 130.5) ClickStop
         recording_world)
  = Raise (BaseException "SystemExit") /\
  recorder (state (snd (Live.stop_recording Live.exits (at_clock 130.5)
                          ClickStop recording_world)))
  = Some (NdArray max_frames silence).
Proof.
  split; [reflexivity|].
  destruct (analysis_errors_in_the_handler Live.exits (at_clock 130.5)
              recording_world (NdArray max_frames silence) 100
              "We launch in May." eq_refl eq_refl eq_refl eq_refl eq_refl)
    as (_ & _ & _ & H).
  rewrite (H sample_reply (BaseException "SystemExit") _
             eq_refl eq_refl eq_refl).
  split; reflexivity.
Defined.

End Failures.

(** ** What every run keeps true, while replies change nothing *)

Section Invariants.
Import Stamp Audio PyVal App Runs.

Lemma read_write_kept (p q : string) (f : wav) (d : files) :
  read p d <> None -> read p (write q f d) <> None.
Proof.
  intros H. destruct (String.eqb_spec q p) as [->|Hne].
  - now rewrite read_write_same.
  - now rewrite read_write_other.
Qed.

Lemma consistent_ext (w w' : world) :
  state w' = state w -> disk w' = disk w -> consistent w -> consistent w'.
Proof. intros Hs Hd [? ? ? ? ?]. split; rewrite ?Hs, ?Hd; assumption. Qed.

Lemma live_reruns_app (steps : list Live.run) (r : Live.run) (w : world) :
  Live.reruns (steps ++ [r]) w
  = snd (Live.rerun (Live.evaluating r) (Live.surroundings r)
           (Live.pressed r) (Live.reruns steps w)).
Proof.
  revert w; induction steps as [|r' steps IH]; intros w; simpl;
    [reflexivity | apply IH].
Qed.

(** A Stop that reaches the save, with a reply whose evaluation changes
    nothing: the file is written, the session is left in one of four
    shapes (the speech model failed; the evaluation raised outside
    [Exception]; the analysis failed and was caught; the analysis was
    stored), and the notice of line 198 is not among what is drawn. *)
Lemma live_stop_recording_inert
    (eval : Live.evaluation) (e : env) (w : world) (rec : ndarray) (t0 : Q) :
  Live.inert eval ->
  is_recording (state w) = true ->
  recorder (state w) = Some rec ->
  start_time (state w) = Some t0 ->
  write_ok e = true ->
  let s1 := set_last_recording (filename (today e))
              (set_elapsed_time (Some (round e (clock e - t0)))
                 (set_is_recording false (state w))) in
  let w' := snd (Live.stop_recording eval e ClickStop w) in
  disk w'
  = write (filename (today e))
      (Wav (take rec (elapsed_frames e (round e (clock e - t0)))) 44100)
      (disk w) /\
  (state w' = s1 \/
   exists t,
     state w' = set_last_transcription t s1 \/
     state w' = set_recorder None (set_last_transcription t s1) \/
     exists v,
       state w'
       = set_recorder None (set_last_analysis v (set_last_transcription t s1)))
  /\
  exists added,
    page w' = (page w ++ added)%list /\ ~ In idle_notice added.
Proof.
  intros Hin Hi Hr Ht Hw s1 w'. unfold w'.
  rewrite (live_stop_recording_saves eval e w rec t0) by assumption.
  fold s1.
  destruct (heard e) as [t|] eqn:Hh.
  2:{ rewrite live_process_recording_not_heard by assumption.
      cbn [snd state disk page]. split; [reflexivity|]. split; [now left|].
      rewrite <- List.app_assoc. eexists; split; [reflexivity|].
      simpl. unfold idle_notice. intuition discriminate. }
  destruct (reply e) as [r|] eqn:Hre.
  2:{ rewrite (live_process_recording_no_reply eval e _ t) by assumption.
      cbn [snd state disk page]. split; [reflexivity|].
      split; [right; exists t; right; now left|].
      rewrite <- List.app_assoc. eexists; split; [reflexivity|].
      simpl. unfold idle_notice. intuition discriminate. }
  rewrite (live_process_recording_heard eval e _ t r) by assumption.
  match goal with
  | |- context [eval r ?w1] =>
      pose proof (Hin r w1) as Hsame; destruct (eval r w1) as [o after]
  end.
  cbn [snd] in Hsame. subst after.
  destruct o as [v|ex]; [|destruct (is_exception ex)];
    cbn [snd state disk page]; (split; [reflexivity|]); split.
  - right. exists t. right. right. now exists v.
  - rewrite <- !List.app_assoc. eexists; split; [reflexivity|].
    simpl. unfold idle_notice. intuition discriminate.
  - right. exists t. right. now left.
  - rewrite <- !List.app_assoc. eexists; split; [reflexivity|].
    simpl. unfold idle_notice. intuition discriminate.
  - right. exists t. now left.
  - rewrite <- !List.app_assoc. eexists; split; [reflexivity|].
    simpl. unfold idle_notice. intuition discriminate.
Qed.

(** The world a Stop reaches, in each of its branches, is consistent when
    the world before was. *)
Lemma live_stop_recording_consistent
    (eval : Live.evaluation) (e : env) (w : world) :
  Live.inert eval ->
  consistent w -> consistent (snd (Live.stop_recording eval e ClickStop w)).
Proof.
  intros Hin Hc. destruct (is_recording (state w)) eqn:Hi;
    [|now rewrite live_stop_recording_idle].
  destruct (recorder (state w)) as [rec|] eqn:Hr.
  2:{ rewrite live_stop_recording_stuck by assumption.
      now apply (consistent_ext w). }
  destruct (start_time (state w)) as [t0|] eqn:Ht.
  2:{ rewrite (live_stop_recording_no_start_time eval e w rec) by assumption.
      destruct Hc. split; simpl; auto; discriminate. }
  destruct (write_ok e) eqn:Hw.
  2:{ rewrite (live_stop_recording_storage_error eval e w rec t0)
        by assumption.
      destruct Hc. split; simpl; auto; discriminate. }
  destruct (live_stop_recording_inert eval e w rec t0 Hin Hi Hr Ht Hw)
    as (Hd & Hs & _).
  destruct Hc as [Hplay Htr Han Hsize Hst].
  assert (Hfile : forall p,
             Some (filename (today e)) = Some p ->
             read p (write (filename (today e))
                       (Wav (take rec (elapsed_frames e
                                         (round e (clock e - t0)))) 44100)
                       (disk w)) <> None).
  { intros p E. inversion E; subst. now rewrite read_write_same. }
  destruct Hs as [Hs|(t & [Hs|[Hs|(v & Hs)]])];
    split; rewrite ?Hs, ?Hd; simpl; try discriminate; auto;
    now rewrite Hr.
Qed.

Lemma start_recording_consistent (e : env) (w : world) :
  consistent w -> consistent (snd (start_recording e ClickStart w)).
Proof.
  intros Hc. destruct (is_recording (state w)) eqn:Hi;
    [now rewrite start_recording_busy|].
  destruct Hc as [Hplay Htr Han Hsize Hst].
  destruct (microphone e) as [signal|] eqn:Hm.
  - rewrite (start_recording_opens e w signal) by assumption.
    split; simpl; try discriminate; auto.
    intros r E. now inversion E.
  - rewrite start_recording_no_device by assumption.
    split; simpl; try discriminate; auto.
Qed.

Lemma live_handlers_consistent
    (eval : Live.evaluation) (e : env) (c : click) (w : world) :
  Live.inert eval ->
  consistent w -> consistent (snd (Live.handlers eval e c w)).
Proof.
  intros Hin Hc. destruct c.
  - now rewrite live_handlers_no_click.
  - rewrite live_handlers_start. now apply start_recording_consistent.
  - rewrite live_handlers_stop. now apply live_stop_recording_consistent.
Qed.

Lemma live_rerun_consistent
    (eval : Live.evaluation) (e : env) (c : click) (w : world) :
  Live.inert eval ->
  consistent w -> consistent (snd (Live.rerun eval e c w)).
Proof.
  intros Hin Hc. destruct (live_rerun_state_disk eval e c w) as (Hs & Hd).
  apply (consistent_ext _ _ Hs Hd), live_handlers_consistent; [assumption|].
  now apply (consistent_ext w).
Qed.

Lemma load_consistent (existing : files) : consistent (Live.load existing).
Proof. split; simpl; intros; congruence. Qed.

Lemma live_reruns_consistent (steps : list Live.run) (w : world) :
  Forall (fun r => Live.inert (Live.evaluating r)) steps ->
  consistent w -> consistent (Live.reruns steps w).
Proof.
  revert w; induction steps as [|r steps IH]; intros w Hall Hc; simpl;
    [exact Hc|].
  inversion Hall; subst. apply IH; [assumption|].
  now apply live_rerun_consistent.
Qed.

(** X7.  After any sequence of runs from the first load of the page, on
    whatever the directory held, whatever is clicked and whichever
    collaborators fail, as long as evaluating the replies changes nothing
    (it may return or raise anything): [last_recording], when set, names a
    file that is on disk; a transcript is never held without a recording,
    nor an analysis without a transcript; the recorder, when present, has
    [44100 * 3600] frames; and [is_recording] is never true without a
    start time. *)
Theorem session_stays_consistent
    (existing : files) (steps : list Live.run) :
  Forall (fun r => Live.inert (Live.evaluating r)) steps ->
  consistent (Live.reruns steps (Live.load existing)).
Proof.
  intros Hall. apply live_reruns_consistent; [assumption|].
  apply load_consistent.
Qed.

Lemma session_stays_consistent_witness :
  Forall (fun r => Live.inert (Live.evaluating r))
         [Live.Run studio (Live.literal sample_analysis) ClickStart;
          Live.Run (at_clock 130.5) Live.exits ClickStop] /\
  consistent
    (Live.reruns [Live.Run studio (Live.literal sample_analysis) ClickStart;
                  Live.Run (at_clock 130.5) Live.exits ClickStop]
                 (Live.load [])).
Proof.
  assert (H : Forall (fun r => Live.inert (Live.evaluating r))
                [Live.Run studio (Live.literal sample_analysis) ClickStart;
                 Live.Run (at_clock 130.5) Live.exits ClickStop])
    by (repeat constructor; intros r w; reflexivity).
  split; [exact H|].
  exact (session_stays_consistent [] _ H).
Defined.

(** X19.  In every world reached from the first load by runs whose
    replies changed nothing, the two button handlers raise only what a
    collaborator raised (the device error of a Start whose device does
    not open, the storage error of a Stop whose write fails, the
    transcription error of a Stop whose speech model fails) or what the
    evaluation of this run's reply raised outside [Exception].  In
    particular the subtraction at line 170 never meets a missing start
    time, and no analyzer error and no [Exception] of [eval] leaves the
    handler. *)
Theorem handlers_raise_only_collaborator_errors
    (existing : files) (steps : list Live.run)
    (eval : Live.evaluation) (e : env) (c : click) (ex : exn) :
  Forall (fun r => Live.inert (Live.evaluating r)) steps ->
  fst (Live.handlers eval e c (Live.reruns steps (Live.load existing)))
  = Raise ex ->
  (ex = DeviceError /\ c = ClickStart /\ microphone e = None) \/
  (ex = StorageError /\ c = ClickStop /\ write_ok e = false) \/
  (ex = TranscriptionError /\ c = ClickStop /\ write_ok e = true /\
   heard e = None) \/
  (is_exception ex = false /\ c = ClickStop /\ write_ok e = true /\
   exists t r asked,
     heard e = Some t /\ reply e = Some r /\
     fst (eval r asked) = Raise ex).
Proof.
  intros Hall.
  pose proof (live_reruns_consistent steps (Live.load existing) Hall
                (load_consistent existing)) as Hc.
  generalize dependent (Live.reruns steps (Live.load existing)).
  intros w Hc.
  destruct c.
  - rewrite live_handlers_no_click. discriminate.
  - rewrite live_handlers_start.
    destruct (is_recording (state w)) eqn:Hi;
      [rewrite start_recording_busy by assumption; discriminate|].
    destruct (microphone e) as [signal|] eqn:Hm.
    + rewrite (start_recording_opens e w signal) by assumption.
      discriminate.
    + rewrite start_recording_no_device by assumption.
      intros E. inversion E. left. auto.
  - rewrite live_handlers_stop.
    destruct (is_recording (state w)) eqn:Hi;
      [|rewrite live_stop_recording_idle by assumption; discriminate].
    destruct (recorder (state w)) as [rec|] eqn:Hr.
    2:{ rewrite live_stop_recording_stuck by assumption. discriminate. }
    destruct (start_time (state w)) as [t0|] eqn:Ht;
      [|exfalso; now apply (started_at w Hc Hi)].
    destruct (write_ok e) eqn:Hw.
    2:{ rewrite (live_stop_recording_storage_error eval e w rec t0)
          by assumption.
        intros E. inversion E. right. left. auto. }
    rewrite (live_stop_recording_saves eval e w rec t0) by assumption.
    destruct (heard e) as [t|] eqn:Hh.
    2:{ rewrite live_process_recording_not_heard by assumption.
        intros E. inversion E. right. right. left. auto. }
    destruct (reply e) as [r|] eqn:Hre.
    2:{ rewrite (live_process_recording_no_reply eval e _ t) by assumption.
        discriminate. }
    rewrite (live_process_recording_heard eval e _ t r) by assumption.
    match goal with
    | |- context [eval r ?w1] =>
        set (asked := w1); destruct (eval r asked) as [o after] eqn:Hev
    end.
    destruct o as [v|ex']; [discriminate|].
    destruct (is_exception ex') eqn:Hex; [discriminate|].
    intros E. inversion E; subst ex'. right. right. right.
    split; [exact Hex|]. split; [reflexivity|]. split; [reflexivity|].
    exists t, r, asked. split; [reflexivity|]. split; [reflexivity|].
    now rewrite Hev.
Qed.

Lemma handlers_raise_only_collaborator_errors_witness :
  Forall (fun r => Live.inert (Live.evaluating r))
         [Live.Run studio (Live.literal sample_analysis) ClickStart] /\
  fst (Live.handlers Live.exits disk_full ClickStop
         (Live.reruns
            [Live.Run studio (Live.literal sample_analysis) ClickStart]
            (Live.load [])))
  = Raise StorageError /\
  write_ok disk_full = false.
Proof.
  assert (Hall : Forall (fun r => Live.inert (Live.evaluating r))
                   [Live.Run studio (Live.literal sample_analysis)
                      ClickStart])
    by (repeat constructor; intros r w; reflexivity).
  assert (H : fst (Live.handlers Live.exits disk_full ClickStop
                     (Live.reruns
                        [Live.Run studio (Live.literal sample_analysis)
                           ClickStart]
                        (Live.load [])))
              = Raise StorageError) by (vm_compute; reflexivity).
  split; [exact Hall|]. split; [exact H|].
  destruct (handlers_raise_only_collaborator_errors
              [] _ Live.exits disk_full ClickStop StorageError Hall H)
    as [(E & _)|[(_ & _ & Hw)|[(E & _)|(E & _)]]];
    [discriminate E | exact Hw | discriminate E | discriminate E].
Defined.

End Invariants.

(** ** The flag and the recorder, while the device opens *)

Section Capturing.
Import Stamp Audio PyVal App Runs.

Lemma capturing_ext (w w' : world) :
  state w' = state w -> capturing w -> capturing w'.
Proof. unfold capturing. now intros ->. Qed.

(** A run is well behaved: its device opens and evaluating its reply
    changes nothing. *)
Lemma live_handlers_capturing
    (eval : Live.evaluation) (e : env) (c : click) (w : world) :
  microphone e <> None ->
  Live.inert eval ->
  capturing w ->
  capturing (snd (Live.handlers eval e c w)) /\
  exists added,
    page (snd (Live.handlers eval e c w)) = (page w ++ added)%list /\
    ~ In idle_notice added.
Proof.
  intros Hm Hin Hc.
  assert (Hsame : capturing w /\
                  exists added, page w = (page w ++ added)%list /\
                                ~ In idle_notice added).
  { split; [exact Hc|]. exists []. now rewrite app_nil_r. }
  destruct c.
  - now rewrite live_handlers_no_click.
  - rewrite live_handlers_start.
    destruct (is_recording (state w)) eqn:Hi;
      [now rewrite start_recording_busy|].
    destruct (microphone e) as [signal|] eqn:Hmic; [|contradiction].
    rewrite (start_recording_opens e w signal) by assumption.
    split; [intros _; discriminate|].
    eexists; split; [reflexivity|]. simpl. intuition discriminate.
  - rewrite live_handlers_stop.
    destruct (is_recording (state w)) eqn:Hi;
      [|now rewrite live_stop_recording_idle].
    destruct (recorder (state w)) as [rec|] eqn:Hr;
      [|exfalso; apply (Hc Hi); exact Hr].
    destruct (start_time (state w)) as [t0|] eqn:Ht.
    2:{ rewrite (live_stop_recording_no_start_time eval e w rec)
          by assumption.
        split; [intros E; discriminate E|].
        exists []. now rewrite app_nil_r. }
    destruct (write_ok e) eqn:Hw.
    2:{ rewrite (live_stop_recording_storage_error eval e w rec t0)
          by assumption.
        split; [intros E; discriminate E|].
        exists []. now rewrite app_nil_r. }
    destruct (live_stop_recording_inert eval e w rec t0 Hin Hi Hr Ht Hw)
      as (_ & Hs & Hp).
    split; [|exact Hp]. unfold capturing.
    destruct Hs as [Hs|(t & [Hs|[Hs|(v & Hs)]])]; rewrite Hs;
      intros E; discriminate E.
Qed.

Lemma live_rerun_capturing
    (eval : Live.evaluation) (e : env) (c : click) (w : world) :
  microphone e <> None -> Live.inert eval ->
  capturing w -> capturing (snd (Live.rerun eval e c w)).
Proof.
  intros Hm Hin Hc. destruct (live_rerun_state_disk eval e c w) as (Hs & _).
  apply (capturing_ext _ _ Hs).
  apply live_handlers_capturing; assumption.
Qed.

Lemma live_reruns_capturing (steps : list Live.run) (w : world) :
  Forall (fun r => microphone (Live.surroundings r) <> None /\
                   Live.inert (Live.evaluating r)) steps ->
  capturing w -> capturing (Live.reruns steps w).
Proof.
  revert w; induction steps as [|r steps IH]; intros w Hall Hc; simpl;
    [exact Hc|].
  inversion Hall as [|? ? (Hm & Hin) Hrest]; subst.
  apply IH; [assumption|]. now apply live_rerun_capturing.
Qed.

(** X8.  As long as, in every run, the device opened and evaluating the
    reply changed nothing, the recorder is present whenever
    [is_recording] is true, and no run, whatever is clicked in it, draws
    "No recording in progress!": short of a reply that writes to the
    session, the [else] branch of line 197 is reached only after a failed
    start. *)
Theorem idle_notice_needs_a_failed_start
    (existing : files) (steps : list Live.run) (last : Live.run) :
  Forall (fun r => microphone (Live.surroundings r) <> None /\
                   Live.inert (Live.evaluating r)) (steps ++ [last]) ->
  capturing (Live.reruns steps (Live.load existing)) /\
  capturing (Live.reruns (steps ++ [last]) (Live.load existing)) /\
  ~ In idle_notice
       (page (Live.reruns (steps ++ [last]) (Live.load existing))).
Proof.
  intros Hall. apply Forall_app in Hall as (Hsteps & Hlast).
  inversion Hlast as [|? ? (Hm & Hin) _]; subst.
  assert (H0 : capturing (Live.load existing)) by (intros E; discriminate E).
  pose proof (live_reruns_capturing steps _ Hsteps H0) as Hc.
  split; [exact Hc|]. rewrite live_reruns_app.
  split; [now apply live_rerun_capturing|].
  set (w := Live.reruns steps (Live.load existing)) in *.
  destruct (live_rerun_page (Live.evaluating last) (Live.surroundings last)
              (Live.pressed last) w) as (drawn & -> & Hd).
  set (w0 := World (state w) (disk w) heading).
  destruct (live_handlers_capturing (Live.evaluating last)
              (Live.surroundings last) (Live.pressed last) w0 Hm Hin)
    as (_ & added & -> & Hadd);
    [now apply (capturing_ext w)|].
  intros Hi. apply in_app_or in Hi as [Hi|Hi].
  - apply in_app_or in Hi as [Hi|Hi]; [|contradiction].
    simpl in Hi. intuition discriminate.
  - rewrite List.Forall_forall in Hd. apply Hd in Hi. discriminate.
Qed.

Lemma idle_notice_needs_a_failed_start_witness :
  Forall (fun r => microphone (Live.surroundings r) <> None /\
                   Live.inert (Live.evaluating r))
         ([Live.Run studio (Live.literal sample_analysis) ClickStart;
           Live.Run (at_clock 130.5) (Live.literal sample_analysis) ClickStop]
          ++ [Live.Run (at_clock 140) (Live.literal sample_analysis)
                ClickStop]) /\
  ~ In idle_notice
       (page (Live.reruns
                ([Live.Run studio (Live.literal sample_analysis) ClickStart;
                  Live.Run (at_clock 130.5) (Live.literal sample_analysis)
                    ClickStop]
                 ++ [Live.Run (at_clock 140) (Live.literal sample_analysis)
                       ClickStop])
                (Live.load []))).
Proof.
  assert (H : Forall (fun r => microphone (Live.surroundings r) <> None /\
                               Live.inert (Live.evaluating r))
                ([Live.Run studio (Live.literal sample_analysis) ClickStart;
                  Live.Run (at_clock 130.5) (Live.literal sample_analysis)
                    ClickStop]
                 ++ [Live.Run (at_clock 140) (Live.literal sample_analysis)
                       ClickStop]))
    by (repeat constructor; try discriminate; intros r w; reflexivity).
  split; [exact H|].
  destruct (idle_notice_needs_a_failed_start [] _ _ H) as (_ & _ & Hn).
  exact Hn.
Defined.

(** X23.  A reply that writes to the session undoes this: after a Stop
    whose reply sets [is_recording] while it is evaluated, the flag is
    true with no recorder in the session, although every device opened;
    the next Stop draws "No recording in progress!". *)
Theorem reply_can_set_the_flag :
  let w1 := snd (Live.rerun Live.sets_the_flag (at_clock 130.5) ClickStop
                   recording_world) in
  microphone studio <> None /\
  microphone (at_clock 130.5) <> None /\
  microphone (at_clock 140) <> None /\
  fst (Live.rerun Live.sets_the_flag (at_clock 130.5) ClickStop
         recording_world) = Ok tt /\
  is_recording (state w1) = true /\
  recorder (state w1) = None /\
  In idle_notice
     (page (snd (Live.rerun (Live.literal sample_analysis) (at_clock 140)
                   ClickStop w1))).
Proof.
  cbv zeta.
  split; [discriminate|]. split; [discriminate|]. split; [discriminate|].
  split; [vm_compute; reflexivity|].
  split; [vm_compute; reflexivity|].
  split; [vm_compute; reflexivity|].
  vm_compute. tauto.
Qed.

End Capturing.

(** ** The recordings directory over time *)

Section Directory.
Import Stamp Audio PyVal App Runs.

(** Writing to a path keeps the names and their order; a new name goes to
    the end. *)
Lemma write_names (p : string) (f : wav) (d : files) :
  (In p (map fst d) /\ map fst (write p f d) = map fst d) \/
  (~ In p (map fst d) /\ map fst (write p f d) = (map fst d ++ [p])%list).
Proof.
  induction d as [|[q g] d IH]; simpl; [right; tauto|].
  destruct (String.eqb_spec q p) as [->|Hne]; simpl; [left; tauto|].
  destruct IH as [(Hin & ->)|(Hn & ->)]; [left; tauto|].
  right. split; [intros [E|H]; contradiction | reflexivity].
Qed.

(** Processing the recording leaves the directory to the evaluation of
    the reply. *)
Lemma live_process_recording_disk
    (eval : Live.evaluation) (e : env) (f : string) (w : world) :
  Live.keeps_disk eval ->
  disk (snd (Live.process_recording eval e f w)) = disk w.
Proof.
  intros Hk.
  destruct (heard e) as [t|] eqn:Hh;
    [|now rewrite live_process_recording_not_heard].
  destruct (reply e) as [r|] eqn:Hre;
    [|now rewrite (live_process_recording_no_reply eval e _ t)].
  rewrite (live_process_recording_heard eval e _ t r) by assumption.
  match goal with
  | |- context [eval r ?w1] =>
      pose proof (Hk r w1) as Hsame; destruct (eval r w1) as [o after]
  end.
  cbn [snd disk] in Hsame.
  destruct o as [v|ex]; [|destruct (is_exception ex)]; exact Hsame.
Qed.

(** The disk after the handlers: as before, or with one write under the
    name of this run's clock reading. *)
Lemma live_handlers_disk
    (eval : Live.evaluation) (e : env) (c : click) (w : world) :
  Live.keeps_disk eval ->
  disk (snd (Live.handlers eval e c w)) = disk w \/
  exists f, disk (snd (Live.handlers eval e c w))
            = write (filename (today e)) f (disk w).
Proof.
  intros Hk. destruct c.
  - left. now rewrite live_handlers_no_click.
  - left. rewrite live_handlers_start.
    destruct (is_recording (state w)) eqn:Hi;
      [now rewrite start_recording_busy|].
    destruct (microphone e) as [signal|] eqn:Hm.
    + now rewrite (start_recording_opens e w signal).
    + now rewrite start_recording_no_device.
  - rewrite live_handlers_stop.
    destruct (is_recording (state w)) eqn:Hi;
      [|left; now rewrite live_stop_recording_idle].
    destruct (recorder (state w)) as [rec|] eqn:Hr;
      [|left; now rewrite live_stop_recording_stuck].
    destruct (start_time (state w)) as [t0|] eqn:Ht.
    2:{ left. now rewrite (live_stop_recording_no_start_time eval e w rec). }
    destruct (write_ok e) eqn:Hw.
    2:{ left.
        now rewrite (live_stop_recording_storage_error eval e w rec t0). }
    right. rewrite (live_stop_recording_saves eval e w rec t0) by assumption.
    eexists. rewrite live_process_recording_disk by assumption.
    reflexivity.
Qed.

Lemma live_rerun_disk
    (eval : Live.evaluation) (e : env) (c : click) (w : world) :
  Live.keeps_disk eval ->
  disk (snd (Live.rerun eval e c w)) = disk w \/
  exists f, disk (snd (Live.rerun eval e c w))
            = write (filename (today e)) f (disk w).
Proof.
  intros Hk. destruct (live_rerun_state_disk eval e c w) as (_ & ->).
  apply (live_handlers_disk eval e c (World (state w) (disk w) heading) Hk).
Qed.

(** X9.  A run whose reply, when evaluated, leaves the directory alone
    never removes or renames a file: every path on disk before the run is
    on disk after it; the run adds at most one file, named by its own
    clock reading, and only a run in which Stop is pressed can add or
    replace one. *)
Theorem run_keeps_every_file
    (eval : Live.evaluation) (e : env) (c : click) (w : world) :
  Live.keeps_disk eval ->
  (forall p, read p (disk w) <> None ->
             read p (disk (snd (Live.rerun eval e c w))) <> None) /\
  (map fst (disk (snd (Live.rerun eval e c w))) = map fst (disk w) \/
   map fst (disk (snd (Live.rerun eval e c w)))
   = (map fst (disk w) ++ [filename (today e)])%list) /\
  (c <> ClickStop -> disk (snd (Live.rerun eval e c w)) = disk w).
Proof.
  intros Hk. split; [|split].
  - intros p Hp. destruct (live_rerun_disk eval e c w Hk) as [->|(f & ->)];
      [assumption | now apply read_write_kept].
  - destruct (live_rerun_disk eval e c w Hk) as [->|(f & ->)]; [now left|].
    destruct (write_names (filename (today e)) f (disk w))
      as [(_ & ->)|(_ & ->)]; [now left | now right].
  - intros Hc. destruct (live_rerun_state_disk eval e c w) as (_ & ->).
    destruct c; [| |contradiction].
    + now rewrite live_handlers_no_click.
    + rewrite live_handlers_start.
      destruct (is_recording (state w)) eqn:Hi;
        [now rewrite start_recording_busy|].
      destruct (microphone e) as [signal|] eqn:Hm.
      * now rewrite (start_recording_opens e _ signal).
      * now rewrite start_recording_no_device.
Qed.

Lemma run_keeps_every_file_witness :
  Live.keeps_disk Live.sets_the_flag /\
  (map fst (disk (snd (Live.rerun Live.sets_the_flag (at_clock 130.5)
                         ClickStop recording_world)))
   = map fst (disk recording_world) \/
   map fst (disk (snd (Live.rerun Live.sets_the_flag (at_clock 130.5)
                         ClickStop recording_world)))
   = (map fst (disk recording_world)
      ++ [filename (today (at_clock 130.5))])%list).
Proof.
  assert (Hk : Live.keeps_disk Live.sets_the_flag)
    by (intros r w; reflexivity).
  split; [exact Hk|].
  destruct (run_keeps_every_file Live.sets_the_flag (at_clock 130.5)
              ClickStop recording_world Hk) as (_ & H & _).
  exact H.
Defined.

Lemma write_named (t : datetime) (f : wav) (d : files) :
  valid t -> named_by_stamps d ->
  named_by_stamps (write (filename t) f d).
Proof.
  intros Hv (Hnd & Hall). unfold named_by_stamps.
  destruct (write_names (filename t) f d) as [(Hin & ->)|(Hn & ->)];
    [now split|].
  split.
  - apply List.NoDup_app; [assumption | repeat constructor; simpl; tauto |].
    intros x Hx [<-|[]]. contradiction.
  - apply Forall_app. split; [assumption|].
    constructor; [eauto | constructor].
Qed.

Lemma live_reruns_named (steps : list Live.run) (w : world) :
  Forall (fun r => valid (today (Live.surroundings r)) /\
                   Live.keeps_disk (Live.evaluating r)) steps ->
  named_by_stamps (disk w) ->
  named_by_stamps (disk (Live.reruns steps w)).
Proof.
  revert w; induction steps as [|r steps IH]; intros w Hall Hn; simpl;
    [exact Hn|].
  inversion Hall as [|? ? (Hv & Hk) Hrest]; subst.
  apply IH; [assumption|].
  destruct (live_rerun_disk (Live.evaluating r) (Live.surroundings r)
              (Live.pressed r) w Hk) as [->|(f & ->)];
    [assumption | now apply write_named].
Qed.

Lemma named_stamps (names : list string) :
  Forall (fun p => exists t, valid t /\ p = filename t) names ->
  exists stamps, names = map filename stamps /\ Forall valid stamps.
Proof.
  induction 1 as [|p names (t & Hv & ->) _ (stamps & -> & Hs)].
  - exists []. split; [reflexivity | constructor].
  - exists (t :: stamps). split; [reflexivity | now constructor].
Qed.

Lemma listdir_filenames (d : files) (stamps : list datetime) :
  map fst d = map filename stamps ->
  listdir "recordings" d = map basename stamps.
Proof.
  revert stamps; induction d as [|[p g] d IH]; intros [|t stamps] E;
    simpl in *; try discriminate; [reflexivity|].
  inversion E as [[Hp Hd]]. unfold listdir in *. cbn [omap list_omap fst].
  rewrite entry_name_filename. f_equal. now apply IH.
Qed.

Lemma basename_of_filename (a b : datetime) :
  basename a = basename b -> filename a = filename b.
Proof.
  intros E. change (filename a) with ("recordings/" ++ basename a).
  change (filename b) with ("recordings/" ++ basename b). now rewrite E.
Qed.

(** X10.  Start from a directory that holds only files [save_audio]
    named, no name twice (an empty one, for instance), and let the page
    run any number of times with valid clock readings and replies whose
    evaluation leaves the directory alone, whatever is clicked and
    whatever fails.  Then the directory still holds only such files, no
    name twice, and the saved-recordings list shows every one of them,
    each once, strictly newest first. *)
Theorem reachable_recordings_newest_first
    (existing : files) (steps : list Live.run) :
  named_by_stamps existing ->
  Forall (fun r => valid (today (Live.surroundings r)) /\
                   Live.keeps_disk (Live.evaluating r)) steps ->
  let d := disk (Live.reruns steps (Live.load existing)) in
  named_by_stamps d /\
  exists ordered,
    saved_recordings (listdir "recordings" d) = map basename ordered /\
    Permutation (map filename ordered) (map fst d) /\
    StronglySorted newer ordered.
Proof.
  intros Hex Hall d.
  assert (Hn : named_by_stamps d)
    by (apply live_reruns_named; assumption).
  split; [exact Hn|]. destruct Hn as (Hnd & Hnames).
  destruct (named_stamps _ Hnames) as (stamps & Hmap & Hvalid).
  rewrite (listdir_filenames _ stamps Hmap), Hmap.
  unfold saved_recordings. rewrite filter_keeps_all.
  2:{ rewrite List.Forall_forall. intros f Hf.
      apply in_map_iff in Hf as (t & <- & _). apply basename_endswith_wav. }
  destruct (sort_reverse_sorted (map basename stamps)) as (Hp & Hs).
  destruct (Permutation_map_inv _ _ Hp) as (ordered & Heq & Hord).
  exists ordered. split; [exact Heq|].
  split; [now apply Permutation_map, Permutation_sym|].
  apply descending_names_newest_first.
  - rewrite List.Forall_forall in *. intros t Ht. apply Hvalid.
    now apply (Permutation_in _ (Permutation_sym Hord)).
  - apply (Permutation_NoDup (l := map basename stamps));
      [now apply Permutation_map|].
    rewrite Hmap in Hnd. clear - Hnd.
    induction stamps as [|t stamps IH]; simpl in *; [constructor|].
    inversion Hnd as [|? ? Hnotin Hnd']; subst.
    constructor; [|now apply IH].
    intros Hin. apply Hnotin. apply in_map_iff in Hin as (t' & E & Ht').
    apply in_map_iff. exists t'. split; [now apply basename_of_filename|
                                         exact Ht'].
  - now rewrite <- Heq.
Qed.

Lemma reachable_recordings_newest_first_witness :
  named_by_stamps [(filename noon_sharp, Wav take_one 44100)] /\
  Forall (fun r => valid (today (Live.surroundings r)) /\
                   Live.keeps_disk (Live.evaluating r))
         [Live.Run studio (Live.literal sample_analysis) ClickStart;
          Live.Run (at_time evening) Live.sets_the_flag ClickStop] /\
  named_by_stamps
    (disk (Live.reruns
             [Live.Run studio (Live.literal sample_analysis) ClickStart;
              Live.Run (at_time evening) Live.sets_the_flag ClickStop]
             (Live.load [(filename noon_sharp, Wav take_one 44100)]))).
Proof.
  assert (Hv : forall t, t = noon_sharp \/ t = afternoon \/ t = evening ->
                         valid t)
    by (intros t [-> | [-> | ->]]; unfold valid; simpl; lia).
  assert (Hex : named_by_stamps [(filename noon_sharp, Wav take_one 44100)]).
  { split; simpl.
    - repeat constructor. simpl. tauto.
    - repeat constructor. exists noon_sharp. split; [apply Hv; tauto|].
      reflexivity. }
  assert (H : Forall (fun r => valid (today (Live.surroundings r)) /\
                               Live.keeps_disk (Live.evaluating r))
                [Live.Run studio (Live.literal sample_analysis) ClickStart;
                 Live.Run (at_time evening) Live.sets_the_flag ClickStop]).
  { constructor; [split; [apply Hv; tauto | intros r w; reflexivity]|].
    constructor; [split; [apply Hv; tauto | intros r w; reflexivity]|].
    constructor. }
  split; [exact Hex|]. split; [exact H|].
  destruct (reachable_recordings_newest_first _ _ Hex H) as (Hn & _).
  exact Hn.
Defined.

End Directory.

(** ** The saved-recordings section *)

Section SavedSection.
Import Stamp Audio PyVal App Runs.

Lemma substring_whole (s : string) : substring 0 (String.length s) s = s.
Proof. induction s as [|c s IH]; simpl; [reflexivity | now rewrite IH]. Qed.

Lemma substring_is_tail (n : nat) (s : string) :
  (n <= String.length s)%nat ->
  exists a, s = a ++ substring n (String.length s - n) s.
Proof.
  revert s; induction n as [|n IH]; intros s Hn.
  - exists "". rewrite Nat.sub_0_r, substring_whole. reflexivity.
  - destruct s as [|c s]; simpl in Hn; [lia|].
    destruct (IH s ltac:(lia)) as (a & Ha).
    exists (String c a). rewrite app_String. simpl. now rewrite <- Ha.
Qed.

(** [s.endswith(p)] holds exactly of the strings that end in [p]. *)
Lemma endswith_iff (s p : string) :
  PyStr.endswith s p = true <-> exists a, s = a ++ p.
Proof.
  split.
  - unfold PyStr.endswith. intros H. apply andb_prop in H as (Hlen & Heq).
    apply Nat.leb_le in Hlen. apply String.eqb_eq in Heq.
    destruct (substring_is_tail (String.length s - String.length p) s)
      as (a & Ha); [lia|].
    replace (String.length s - (String.length s - String.length p))%nat
      with (String.length p) in Ha by lia.
    rewrite Heq in Ha. now exists a.
  - intros (a & ->). apply endswith_app.
Qed.

Lemma saved_recordings_In (listing : list string) (f : string) :
  In f (saved_recordings listing)
  <-> In f listing /\ exists stem, f = stem ++ ".wav".
Proof.
  unfold saved_recordings.
  destruct (sort_reverse_sorted
              (List.filter (fun f => PyStr.endswith f ".wav") listing))
    as (Hp & _).
  rewrite <- endswith_iff. split.
  - intros H. apply (Permutation_in _ Hp) in H.
    now apply filter_In in H.
  - intros H. apply (Permutation_in _ (Permutation_sym Hp)).
    now apply filter_In.
Qed.

(** X11.  For every directory listing, in any order and with any names:
    the saved-recordings list holds exactly the names that end in [.wav]
    (each as often as it is listed), in descending order; every other
    entry of the directory is left out. *)
Theorem saved_recordings_lists_wav_only (listing : list string) :
  Permutation (saved_recordings listing)
              (List.filter (fun f => PyStr.endswith f ".wav") listing) /\
  StronglySorted (flip String.le) (saved_recordings listing) /\
  forall f, In f (saved_recordings listing)
            <-> In f listing /\ exists stem, f = stem ++ ".wav".
Proof.
  split; [|split; [|apply saved_recordings_In]];
    apply (sort_reverse_sorted
             (List.filter (fun f => PyStr.endswith f ".wav") listing)).
Qed.

Lemma for_each_saved_entry (l : list string) (w : world) :
  for_each l (fun recording =>
                bind (emit (AudioPlayer ("recordings/" ++ recording)))
                     (fun _ => emit (Write (PStr recording)))) w
  = (Ok tt,
     World (state w) (disk w) (page w ++ flat_map saved_entry l)%list).
Proof.
  revert w; induction l as [|r l IH]; intros w; simpl.
  - now rewrite app_nil_r, world_eta.
  - unfold bind at 1. unfold bind at 1. simpl. rewrite IH. simpl.
    now rewrite <- !List.app_assoc.
Qed.

Lemma read_Some_In (p : string) (f : wav) (d : files) :
  read p d = Some f -> In p (map fst d).
Proof.
  intros H. induction d as [|[q g] d IH]; simpl in *; [discriminate|].
  destruct (String.eqb_spec q p); [now left | right; auto].
Qed.

Lemma listdir_In (t : datetime) (d : files) :
  In (filename t) (map fst d) -> In (basename t) (listdir "recordings" d).
Proof.
  induction d as [|[q g] d IH]; simpl; [tauto|].
  unfold listdir in *. cbn [omap list_omap fst].
  intros [->|H].
  - rewrite entry_name_filename. now left.
  - destruct (entry_name "recordings" q); [right|]; auto.
Qed.

Lemma show_saved_recordings_draws (w : world) :
  show_saved_recordings w
  = (Ok tt,
     World (state w) (disk w)
           (page w ++ Expander "Saved Recordings" false
                      :: flat_map saved_entry
                           (saved_recordings
                              (listdir "recordings" (disk w))))%list).
Proof.
  unfold show_saved_recordings, bind at 1, emit at 1.
  unfold bind at 1, get_disk. cbn [disk].
  rewrite for_each_saved_entry. cbn [state disk page].
  now rewrite <- List.app_assoc.
Qed.

(** X12.  The saved-recordings section never raises and changes neither
    session nor disk: it draws its expander and then, for each listed
    name in order, a player for [recordings/<name>] followed by the name.
    Every file [save_audio] has written is among them, under the very
    path it was written to. *)
Theorem saved_section_offers_every_file (w : world) :
  show_saved_recordings w
  = (Ok tt,
     World (state w) (disk w)
           (page w ++ Expander "Saved Recordings" false
                      :: flat_map saved_entry
                           (saved_recordings
                              (listdir "recordings" (disk w))))%list) /\
  forall t f, read (filename t) (disk w) = Some f ->
              In (AudioPlayer (filename t))
                 (page (snd (show_saved_recordings w))).
Proof.
  pose proof (show_saved_recordings_draws w) as E.
  split; [exact E|]. intros t f Hread. rewrite E. cbn [snd page].
  apply in_or_app. right. right. apply in_flat_map.
  exists (basename t). split; [|now left].
  apply saved_recordings_In.
  split; [|exists ("audio_" ++ strftime t);
           unfold basename; now rewrite string_app_assoc].
  eapply listdir_In, read_Some_In, Hread.
Qed.

End SavedSection.

(** ** White space and the diagram text *)

Section Normalising.
Import PyVal App Runs.

Lemma string_app_empty_r (s : string) : s ++ "" = s.
Proof.
  induction s as [|c s IH]; [reflexivity|]. now rewrite app_String, IH.
Qed.

Lemma rev_app_spec (s acc : string) :
  String.rev_app s acc = String.rev s ++ acc.
Proof.
  unfold String.rev. revert acc.
  induction s as [|c s IH]; intros acc; simpl; [reflexivity|].
  rewrite (IH (String c acc)), (IH (String c "")).
  now rewrite string_app_assoc.
Qed.

Lemma rev_String (c : ascii) (s : string) :
  String.rev (String c s) = String.rev s ++ String c "".
Proof. unfold String.rev at 1. simpl. apply rev_app_spec. Qed.

Lemma rev_app_distr (a b : string) :
  String.rev (a ++ b) = String.rev b ++ String.rev a.
Proof.
  induction a as [|c a IH].
  - rewrite app_empty. change (String.rev "") with "".
    now rewrite string_app_empty_r.
  - rewrite app_String, !rev_String, IH. apply string_app_assoc.
Qed.

Lemma rev_involutive (s : string) : String.rev (String.rev s) = s.
Proof.
  induction s as [|c s IH]; [reflexivity|].
  rewrite rev_String, rev_app_distr, IH. reflexivity.
Qed.

Lemma prefix_iff (p s : string) :
  String.prefix p s = true <-> exists t, s = p ++ t.
Proof.
  split.
  - revert s; induction p as [|c p IH]; intros s H; [now exists s|].
    destruct s as [|c' s]; simpl in H; [discriminate|].
    destruct (ascii_dec c c') as [<-|]; [|discriminate].
    destruct (IH s H) as (t & ->). now exists t.
  - intros (t & ->). apply prefix_app.
Qed.

Lemma of_characters_app (l1 l2 : list string) :
  PyStr.of_characters (l1 ++ l2)
  = PyStr.of_characters l1 ++ PyStr.of_characters l2.
Proof.
  induction l1 as [|x l1 IH]; simpl; [now rewrite app_empty|].
  now rewrite IH, string_app_assoc.
Qed.

(** The first character of a string begins with its first byte. *)
Lemma characters_head (c : ascii) (s : string) :
  exists x rest, PyStr.characters (String c s) = String c x :: rest.
Proof.
  simpl. destruct (PyStr.characters s) as [|x xs]; [eauto|].
  destruct (PyStr.starts_inside x); eauto.
Qed.

Lemma characters_starts (s : string) :
  match PyStr.characters s with
  | x :: _ => PyStr.starts_inside x = PyStr.starts_inside s
  | [] => s = ""
  end.
Proof.
  destruct s as [|c s]; [reflexivity|].
  destruct (characters_head c s) as (x & rest & ->). reflexivity.
Qed.

(** A byte followed by the start of a character is a character by
    itself. *)
Lemma characters_cons (c : ascii) (s : string) :
  PyStr.starts_inside s = false ->
  PyStr.characters (String c s) = String c "" :: PyStr.characters s.
Proof.
  intros Hs. simpl. pose proof (characters_starts s) as H.
  destruct (PyStr.characters s) as [|x xs]; [reflexivity|].
  now rewrite H, Hs.
Qed.

(** Appending a text that begins with a whole character appends its
    characters. *)
Lemma characters_app (d x : string) :
  PyStr.starts_inside x = false ->
  PyStr.characters (d ++ x) = (PyStr.characters d ++ PyStr.characters x)%list.
Proof.
  intros Hx. induction d as [|c d IH]; [now rewrite app_empty|].
  rewrite app_String. simpl. rewrite IH.
  destruct (PyStr.characters d) as [|y ys];
    [|simpl; now destruct (PyStr.starts_inside y)].
  simpl. pose proof (characters_starts x) as H.
  destruct (PyStr.characters x) as [|z zs]; [reflexivity|].
  now rewrite H, Hx.
Qed.

Lemma drop_spaces_suffix (l : list string) :
  exists dropped, l = (dropped ++ PyStr.drop_spaces l)%list.
Proof.
  induction l as [|x l (dropped & IH)]; [now exists []|].
  simpl. destruct (PyStr.isspace x).
  - exists (x :: dropped). simpl. now rewrite <- IH.
  - now exists [].
Qed.

(** White space is dropped from the front only. *)
Lemma drop_spaces_app_tail (l1 l2 : list string) :
  exists kept,
    PyStr.drop_spaces (l1 ++ l2) = (kept ++ PyStr.drop_spaces l2)%list.
Proof.
  induction l1 as [|x l1 IH]; [now exists []|].
  simpl. destruct (PyStr.isspace x); [exact IH|].
  destruct (drop_spaces_suffix l2) as (dropped & E).
  exists (x :: l1 ++ dropped). simpl.
  now rewrite <- List.app_assoc, <- E.
Qed.

Lemma drop_spaces_app_kept (l1 l2 : list string) :
  PyStr.drop_spaces l1 <> [] ->
  PyStr.drop_spaces (l1 ++ l2) = (PyStr.drop_spaces l1 ++ l2)%list.
Proof.
  induction l1 as [|x l1 IH]; simpl; [congruence|].
  destruct (PyStr.isspace x); [exact IH | reflexivity].
Qed.

(** A text that starts with [graph] still does after stripping. *)
Lemma strip_keeps_graph (t : string) :
  PyStr.startswith (PyStr.strip ("graph" ++ t)) "graph" = true.
Proof.
  unfold PyStr.startswith, PyStr.strip.
  change ("graph" ++ t)
    with (String "g" (String "r" (String "a" (String "p" (String "h" t))))).
  rewrite !characters_cons by reflexivity.
  destruct (characters_head "h" t) as (x & rest & ->).
  assert (Hh : PyStr.isspace (String "h" x) = false)
    by (vm_compute; reflexivity).
  cbn [PyStr.drop_spaces].
  change (PyStr.isspace "g") with false. cbv iota.
  change ("g" :: "r" :: "a" :: "p" :: String "h" x :: rest)
    with (["g"; "r"; "a"; "p"; String "h" x] ++ rest)%list.
  rewrite List.rev_app_distr.
  destruct (drop_spaces_app_tail (List.rev rest)
              (List.rev ["g"; "r"; "a"; "p"; String "h" x]))
    as (kept & ->).
  cbn [List.rev List.app PyStr.drop_spaces]. rewrite Hh.
  rewrite List.rev_app_distr, of_characters_app.
  apply prefix_iff. eexists.
  cbn [List.rev List.app PyStr.of_characters fold_right].
  rewrite !app_String, !app_empty. reflexivity.
Qed.

(** A text that starts with [graph] once stripped still does when
    something that begins with a whole character is appended. *)
Lemma strip_app_keeps_graph (d x : string) :
  PyStr.starts_inside x = false ->
  PyStr.startswith (PyStr.strip d) "graph" = true ->
  PyStr.startswith (PyStr.strip (d ++ x)) "graph" = true.
Proof.
  unfold PyStr.startswith, PyStr.strip. intros Hx H.
  rewrite characters_app by assumption.
  destruct (PyStr.drop_spaces (PyStr.characters d)) as [|y ys] eqn:Hd;
    [discriminate H|].
  rewrite drop_spaces_app_kept, Hd by (rewrite Hd; discriminate).
  rewrite List.rev_app_distr.
  destruct (drop_spaces_app_tail (List.rev (PyStr.characters x))
              (List.rev (y :: ys))) as (kept & ->).
  rewrite List.rev_app_distr, of_characters_app.
  apply prefix_iff in H as (r & ->).
  apply prefix_iff. eexists. apply string_app_assoc.
Qed.

(** Characters beyond ASCII are one item each. *)
Lemma characters_by_code_point :
  PyStr.characters ("a" ++ PyStr.utf8 233 ++ PyStr.utf8 8364
                    ++ PyStr.utf8 128512 ++ "z")
  = ["a"; PyStr.utf8 233; PyStr.utf8 8364; PyStr.utf8 128512; "z"].
Proof. vm_compute. reflexivity. Qed.

(** White space other than ASCII is stripped as well: a description that
    begins with a no-break space and [graph] counts as declared. *)
Lemma strip_no_break_space :
  PyStr.strip (PyStr.utf8 160 ++ "graph TD" ++ PyStr.utf8 8195) = "graph TD".
Proof. vm_compute. reflexivity. Qed.

Lemma contains_app_r (p a b : string) :
  PyStr.contains p b = true -> PyStr.contains p (a ++ b) = true.
Proof.
  intros H. induction a as [|c a IH]; [now rewrite app_empty|].
  rewrite app_String. cbn [PyStr.contains]. rewrite IH. apply orb_true_r.
Qed.

Lemma contains_app_l (p a b : string) :
  PyStr.contains p a = true -> PyStr.contains p (a ++ b) = true.
Proof.
  induction a as [|c a IH]; cbn [PyStr.contains]; intros H.
  - rewrite orb_false_r in H. apply prefix_iff in H as (t & Ht).
    destruct p; [|discriminate]. now destruct b.
  - rewrite app_String. cbn [PyStr.contains].
    apply orb_true_iff in H as [H|H].
    + apply prefix_iff in H as (t & Ht).
      rewrite <- app_String, Ht, string_app_assoc, prefix_app. reflexivity.
    + rewrite (IH H). apply orb_true_r.
Qed.

(** A text that starts with [graph] and contains [style] goes to the
    widget as it is. *)
Lemma normalize_fixed (d : string) :
  PyStr.startswith (PyStr.strip d) "graph" = true ->
  PyStr.contains "style" d = true ->
  normalize_diagram d = d.
Proof.
  intros H1 H2. unfold normalize_diagram. rewrite H1. cbn [negb].
  now rewrite H2.
Qed.

(** X13.  Whatever the diagram description is, the text handed to the
    widget starts, white space aside, with [graph] and contains [style];
    it is the description itself, unaltered, with at most the declaration
    line in front and the default styles behind; and normalising it again
    changes nothing. *)
Theorem diagram_text_is_normal (d : string) :
  PyStr.startswith (PyStr.strip (normalize_diagram d)) "graph" = true /\
  PyStr.contains "style" (normalize_diagram d) = true /\
  (exists pre post,
     normalize_diagram d = pre ++ d ++ post /\
     (pre = "" \/ pre = "graph TD" ++ nl) /\
     (post = "" \/ post = default_style)) /\
  normalize_diagram (normalize_diagram d) = normalize_diagram d.
Proof.
  assert (Hstyle : PyStr.contains "style" default_style = true)
    by (vm_compute; reflexivity).
  assert (H : PyStr.startswith (PyStr.strip (normalize_diagram d)) "graph"
              = true /\
              PyStr.contains "style" (normalize_diagram d) = true /\
              exists pre post,
                normalize_diagram d = pre ++ d ++ post /\
                (pre = "" \/ pre = "graph TD" ++ nl) /\
                (post = "" \/ post = default_style)).
  { unfold normalize_diagram.
    destruct (PyStr.startswith (PyStr.strip d) "graph") eqn:Hg; cbn [negb].
    - destruct (PyStr.contains "style" d) eqn:Hs; cbn [negb].
      + split; [exact Hg|]. split; [exact Hs|].
        exists "", "". rewrite app_empty, string_app_empty_r. auto.
      + split; [now apply strip_app_keeps_graph|].
        split; [now apply contains_app_r|].
        exists "", default_style. rewrite app_empty. auto.
    - rewrite declaration_has_no_style.
      destruct (PyStr.contains "style" d) eqn:Hs; cbn [negb].
      + split; [apply (strip_keeps_graph (" TD" ++ nl ++ d))|].
        split; [now rewrite declaration_has_no_style|].
        exists ("graph TD" ++ nl), "".
        rewrite string_app_empty_r, string_app_assoc. auto.
      + split; [apply (strip_keeps_graph ((" TD" ++ nl ++ d)
                                          ++ default_style))|].
        split; [now apply contains_app_r|].
        exists ("graph TD" ++ nl), default_style.
        rewrite !string_app_assoc. auto. }
  destruct H as (H1 & H2 & H3).
  split; [exact H1|]. split; [exact H2|]. split; [exact H3|].
  now apply normalize_fixed.
Qed.

End Normalising.

(** ** The panels of the dashboard *)

Section Panels.
Import PyVal App Runs.

Lemma enumerate_lookup {A} (start : Z) (l : list A) (k : nat) :
  enumerate start l !! k = (fun x => (start + Z.of_nat k, x)) <$> l !! k.
Proof.
  revert start k; induction l as [|x l IH]; intros start [|k]; simpl;
    try reflexivity.
  - now rewrite Z.add_0_r.
  - rewrite IH. destruct (l !! k); simpl; [|reflexivity].
    do 2 f_equal. lia.
Qed.

Lemma enumerate_length {A} (start : Z) (l : list A) :
  length (enumerate start l) = length l.
Proof.
  revert start; induction l as [|x l IH]; intros start; simpl;
    [reflexivity | now rewrite IH].
Qed.

(** X14.  For an analysis whose [key_decisions] can be iterated (a list,
    but also a string or a dict), the decisions panel draws its expander
    and then one line per item, in order, the line of the item at
    position [k] (counted from 0) carrying the number [k + 1]. *)
Theorem decisions_are_numbered_from_one
    (analysis ds : pyval) (items : list pyval) (w : world) :
  getitem analysis "key_decisions" = Ok ds ->
  iterate ds = Ok items ->
  key_decisions analysis w
  = (Ok tt,
     World (state w) (disk w)
           (page w ++ Expander "Key Decisions" true
                      :: map decision_line (enumerate 1 items))%list) /\
  length (map decision_line (enumerate 1 items)) = length items /\
  forall (k : nat) (x : pyval),
    items !! k = Some x ->
    map decision_line (enumerate 1 items) !! k
    = Some (Markdown [Lit "**"; Val (PInt (1 + Z.of_nat k)); Lit ".** ";
                      Val x]).
Proof.
  intros Hget Hit. split; [|split].
  - now apply (key_decisions_draws analysis ds).
  - now rewrite length_map, enumerate_length.
  - intros k x Hk. rewrite list_lookup_fmap, enumerate_lookup, Hk.
    reflexivity.
Qed.

Lemma decisions_are_numbered_from_one_witness :
  getitem sample_analysis "key_decisions" = Ok (PList [PStr "Launch in May"])
  /\
  page (snd (key_decisions sample_analysis first_load))
  = [Expander "Key Decisions" true;
     Markdown [Lit "**"; Val (PInt 1); Lit ".** ";
               Val (PStr "Launch in May")]].
Proof.
  split; [reflexivity|].
  destruct (decisions_are_numbered_from_one sample_analysis
              (PList [PStr "Launch in May"]) [PStr "Launch in May"]
              first_load eq_refl eq_refl) as (-> & _).
  reflexivity.
Defined.

Lemma all_str_strings (ss : list string) : all_str (map PStr ss) = Ok ss.
Proof. induction ss as [|s ss IH]; simpl; [reflexivity | now rewrite IH]. Qed.

Lemma chars_letters (s : string) : chars s = map PStr (letters s).
Proof. reflexivity. Qed.

Lemma all_str_not_all (l : list pyval) :
  forallb is_str l = false -> all_str l = Raise TypeError.
Proof.
  induction l as [|v l IH]; simpl; [discriminate|].
  destruct v; simpl; try reflexivity.
  intros H. now rewrite (IH H).
Qed.

(** X15.  The Dependencies column of an action item that has its five
    fields: a list of strings is joined with a comma and a blank; a plain
    string is taken apart and joined letter by letter; a list with an
    element that is not a string makes the row raise [TypeError]. *)
Theorem dependencies_column
    (item task assignee deadline priority deps : pyval) :
  getitem item "task" = Ok task ->
  getitem item "assignee" = Ok assignee ->
  getitem item "deadline" = Ok deadline ->
  getitem item "priority" = Ok priority ->
  getitem item "dependencies" = Ok deps ->
  (forall ss, deps = PList (map PStr ss) ->
     action_row item
     = Ok (Row task assignee deadline priority (String.concat ", " ss))) /\
  (forall s, deps = PStr s ->
     action_row item
     = Ok (Row task assignee deadline priority
               (String.concat ", " (letters s)))) /\
  (forall l, deps = PList l -> forallb is_str l = false ->
     action_row item = Raise TypeError).
Proof.
  intros H1 H2 H3 H4 H5. unfold action_row. rewrite H1, H2, H3, H4, H5.
  unfold PyVal.join, PyStr.join. split; [|split].
  - intros ss ->. simpl. now rewrite all_str_strings.
  - intros s ->. simpl. now rewrite chars_letters, all_str_strings.
  - intros l -> Hl. simpl. now rewrite all_str_not_all.
Qed.

Lemma dependencies_column_witness :
  getitem loose_item "dependencies" = Ok (PStr "none") /\
  action_row loose_item
  = Ok (Row (PStr "Book a room") (PStr "Ana") (PStr "Friday") (PStr "low")
            "n, o, n, e").
Proof.
  split; [reflexivity|].
  destruct (dependencies_column loose_item _ _ _ _ _
              eq_refl eq_refl eq_refl eq_refl eq_refl) as (_ & H & _).
  exact (H "none" eq_refl).
Defined.

Lemma before_dashboard (w : world) :
  exists added,
    bind recording_banner (fun _ => show_transcription) w
    = (Ok tt, World (state w) (disk w) (page w ++ added)%list) /\
    Forall above_dashboard added.
Proof.
  destruct w as [s d p].
  unfold recording_banner, show_transcription.
  unfold bind, get, when, emit, ret. simpl.
  destruct (is_recording s); simpl;
    (destruct (last_transcription s) as [t|]; simpl;
     [destruct (String.eqb t ""); simpl|]);
    eexists; (split;
      [rewrite <- ?List.app_assoc; try reflexivity;
       now rewrite app_nil_r
      | repeat constructor]).
Qed.

Lemma display_split (e : env) (w : world) :
  display e w
  = bind (bind recording_banner (fun _ => show_transcription))
         (fun _ => bind (dashboard e)
                     (fun _ => bind playback
                                 (fun _ => show_saved_recordings))) w.
Proof.
  symmetry.
  apply (bind_assoc_at recording_banner (fun _ => show_transcription)).
Qed.

Lemma dashboard_unreadable (e : env) (w : world) (v : pyval) (ex : exn) :
  last_analysis (state w) = Some v ->
  truthy v = true ->
  getitem v "executive_summary" = Raise ex ->
  dashboard e w
  = (Raise ex,
     World (state w) (disk w)
           (page w ++ [Header "Meeting Analysis Dashboard";
                       Expander "Executive Summary" true])%list).
Proof.
  intros Hla Htr Hget.
  unfold dashboard, panels, executive_summary.
  unfold bind, get, emit, lift. rewrite Hla. unfold when. rewrite Htr.
  simpl. rewrite Hget. now rewrite <- List.app_assoc.
Qed.

(** X16.  A session whose stored analysis is truthy but cannot be
    subscripted by [executive_summary] (a number, a list, a string, or a
    dict without that key): a redraw raises that error after the
    dashboard header, so neither the playback player nor the
    saved-recordings list is drawn; and since the redraw leaves the
    session as it is, every later redraw ends the same way. *)
Theorem unreadable_analysis_hides_the_recordings
    (e : env) (w : world) (v : pyval) (ex : exn) :
  last_analysis (state w) = Some v ->
  truthy v = true ->
  getitem v "executive_summary" = Raise ex ->
  fst (rerun e NoClick w) = Raise ex /\
  state (snd (rerun e NoClick w)) = state w /\
  (forall p, ~ In (AudioPlayer p) (page (snd (rerun e NoClick w)))) /\
  ~ In (Expander "Saved Recordings" false) (page (snd (rerun e NoClick w))).
Proof.
  intros Hla Htr Hget.
  assert (E : exists added,
             rerun e NoClick w
             = (Raise ex,
                World (state w) (disk w)
                      ((heading ++ added)
                       ++ [Header "Meeting Analysis Dashboard";
                           Expander "Executive Summary" true])%list) /\
             Forall above_dashboard added).
  { rewrite rerun_handlers. unfold bind at 1.
    rewrite handlers_no_click, display_split. unfold bind at 1.
    destruct (before_dashboard (World (state w) (disk w) heading))
      as (added & -> & Hadd).
    exists added. split; [|exact Hadd]. unfold bind at 1.
    now rewrite (dashboard_unreadable e _ v ex). }
  destruct E as (added & -> & Hadd). cbn [fst snd state page].
  split; [reflexivity|]. split; [reflexivity|].
  rewrite List.Forall_forall in Hadd.
  split; [intros p Hin | intros Hin];
    (apply in_app_or in Hin as [Hin|Hin];
     [apply in_app_or in Hin as [Hin|Hin];
      [simpl in Hin; intuition discriminate
      | apply Hadd in Hin; simpl in Hin; try contradiction; discriminate]
     | simpl in Hin; intuition discriminate]).
Qed.

Lemma unreadable_analysis_hides_the_recordings_witness :
  getitem (PInt 1) "executive_summary" = Raise TypeError /\
  fst (rerun studio NoClick number_world) = Raise TypeError.
Proof.
  split; [reflexivity|].
  destruct (unreadable_analysis_hides_the_recordings studio number_world
              (PInt 1) TypeError eq_refl eq_refl eq_refl) as (H & _).
  exact H.
Defined.

End Panels.

(** ** A clock that runs backwards *)

Section ClockSetBack.
Import Stamp Audio PyVal App Runs.

Lemma int_of_float_integer (q : Q) (z : Z) :
  (q == inject_Z z)%Q -> int_of_float q = z.
Proof.
  destruct q as [n d]. unfold Qeq, int_of_float; simpl.
  intros H. rewrite Z.mul_1_r in H. subst n.
  apply Z.quot_mul. discriminate.
Qed.

Lemma round_compat (rnd : Q -> Q) (x y : Q) :
  float_rounding rnd -> (x == y)%Q -> (rnd x == rnd y)%Q.
Proof.
  intros [Hmono _] E. apply Qle_antisym; apply Hmono; rewrite E;
    apply Qle_refl.
Qed.

(** [int(elapsed * 44100)] when the elapsed time is a whole number of
    seconds, positive or negative. *)
Lemma elapsed_frames_whole (e : env) (d : Q) (k : Z) :
  float_rounding (round e) ->
  Z.abs k <= 3600 ->
  (d == inject_Z k)%Q ->
  elapsed_frames e d = 44100 * k.
Proof.
  intros Hr Hk E. unfold elapsed_frames. apply int_of_float_integer.
  assert (Hp : 2 ^ 53 = 9007199254740992) by reflexivity.
  rewrite <- (rnd_integer _ Hr (44100 * k)) by lia.
  apply round_compat; [assumption|].
  rewrite E, inject_Z_mult. apply Qmult_comm.
Qed.

(** X17.  A stop whose clock reads [k] whole seconds before the clock of
    the start ([1 <= k <= 3600]), as after the system clock was set back:
    the requested length is negative, Python's slice counts it from the
    end, and the file written holds the buffer without its last [k]
    seconds, [44100 * (3600 - k)] frames of it, instead of nothing. *)
Theorem clock_set_back_saves_most_of_the_buffer
    (e : env) (w : world) (rec : ndarray) (t0 : Q) (k : Z) :
  float_rounding (round e) ->
  is_recording (state w) = true ->
  recorder (state w) = Some rec ->
  frames rec = max_frames ->
  start_time (state w) = Some t0 ->
  write_ok e = true ->
  (clock e - t0 == inject_Z (- k))%Q ->
  1 <= k <= 3600 ->
  read (filename (today e)) (disk (snd (stop_recording e ClickStop w)))
  = Some (Wav (NdArray (44100 * (3600 - k)) (sample rec)) 44100).
Proof.
  intros Hf Hi Hr Hlen Ht Hw Hd Hk.
  rewrite (stop_recording_saves e w rec t0) by assumption.
  match goal with
  | |- context [process_recording e ?f ?w0] =>
      destruct (process_recording_frame e f w0) as (-> & _)
  end.
  cbn [disk]. rewrite read_write_same. do 2 f_equal.
  rewrite (elapsed_frames_whole e _ (- k)); [|assumption|lia|].
  - unfold take, slice_stop. rewrite Hlen. unfold max_frames.
    destruct (44100 * - k <? 0) eqn:E;
      [|apply Z.ltb_ge in E; lia].
    f_equal. lia.
  - rewrite <- (rnd_integer _ Hf (- k)) by
        (assert (2 ^ 53 = 9007199254740992) by reflexivity; lia).
    now apply round_compat.
Qed.

Lemma clock_set_back_saves_most_of_the_buffer_witness :
  (clock (at_clock 40) - 100 == inject_Z (- 60))%Q /\
  read (filename (today (at_clock 40)))
       (disk (snd (stop_recording (at_clock 40) ClickStop recording_world)))
  = Some (Wav (NdArray (44100 * (3600 - 60)) silence) 44100).
Proof.
  assert (Hd : (clock (at_clock 40) - 100 == inject_Z (- 60))%Q)
    by reflexivity.
  split; [exact Hd|].
  pose proof (clock_set_back_saves_most_of_the_buffer (at_clock 40)
                recording_world (NdArray max_frames silence) 100 60
                exact_rounding eq_refl eq_refl eq_refl eq_refl eq_refl Hd
                ltac:(lia)) as H.
  exact H.
Defined.

End ClockSetBack.

(** ** A well-formed analysis *)

Section WellFormed.
Import PyVal App Runs.

Lemma has_Ok (check : pyval -> bool) (v : pyval) (k : string) :
  has check v k = true -> exists x, getitem v k = Ok x /\ check x = true.
Proof.
  unfold has. destruct (getitem v k) as [x|]; [eauto | discriminate].
Qed.

Lemma action_items_table_draws
    (analysis : pyval) (items : list pyval) (w : world) :
  getitem analysis "action_items" = Ok (PList items) ->
  forallb action_item_shape items = true ->
  exists added,
    action_items_table analysis w
    = (Ok tt, World (state w) (disk w) (page w ++ added)%list).
Proof.
  intros Hget Hshape.
  assert (Hrows : exists rows,
             collect action_row items = Ok rows /\
             length rows = length items /\
             Forall (fun r => is_str (Priority r) = true) rows).
  { apply collect_ok. rewrite forallb_forall in Hshape.
    rewrite List.Forall_forall. intros x Hx.
    now apply action_row_ok, Hshape. }
  destruct Hrows as (rows & Hrows & _ & Hprio).
  assert (Hstyles : exists styles,
             collect (fun r => color_priority (Priority r)) rows = Ok styles
             /\ length styles = length rows /\ Forall (fun _ => True) styles).
  { apply collect_ok. rewrite List.Forall_forall in *. intros r Hr.
    specialize (Hprio r Hr). destruct (Priority r); try discriminate.
    simpl. eauto. }
  destruct Hstyles as (styles & Hstyles & _).
  unfold action_items_table, bind, emit, lift. simpl.
  rewrite Hget. simpl. rewrite Hrows.
  destruct rows as [|r rows]; simpl.
  - eexists. reflexivity.
  - simpl in Hstyles. unfold bind. rewrite Hstyles. simpl.
    eexists. now rewrite <- List.app_assoc.
Qed.

Lemma panels_draws (v : pyval) (w : world) :
  analysis_shape v = true ->
  exists shown,
    panels v w
    = (Ok tt,
       World (state w) (disk w)
             (page w ++ Header "Meeting Analysis Dashboard" :: shown)%list).
Proof.
  unfold analysis_shape. intros H.
  repeat (apply andb_prop in H as (H & ?)).
  destruct (has_Ok _ _ _ H) as (sm & Hsm & _).
  destruct (has_Ok is_action_items v "action_items") as (ai & Hai & Hais);
    [assumption|].
  destruct (has_Ok is_str_list v "key_decisions") as (ds & Hds & Hdss);
    [assumption|].
  destruct ai as [| | | | |items|]; try discriminate.
  destruct ds as [| | | | |decisions|]; try discriminate.
  unfold panels, bind at 1, emit at 1.
  unfold bind at 1, executive_summary, bind at 1, emit at 1.
  unfold bind at 1, lift. rewrite Hsm. unfold emit at 1.
  cbn [state disk page]. unfold bind at 1.
  rewrite (key_decisions_draws v (PList decisions) decisions)
    by (assumption || reflexivity).
  cbn [state disk page].
  match goal with
  | |- context [action_items_table v ?w0] =>
      destruct (action_items_table_draws v items w0 Hai Hais) as (added & ->)
  end.
  cbn [state disk page]. eexists. rewrite <- !List.app_assoc. reflexivity.
Qed.

Lemma shape_truthy (v : pyval) : analysis_shape v = true -> truthy v = true.
Proof.
  unfold analysis_shape, has. destruct v as [| | | | | |[|kv d]];
    simpl; try discriminate. reflexivity.
Qed.

Lemma dashboard_draws_all (e : env) (v : pyval) (w : world) :
  last_analysis (state w) = Some v ->
  analysis_shape v = true ->
  fallback_ok e = true ->
  exists rest code h,
    dashboard e w
    = (Ok tt,
       World (state w) (disk w)
             (page w ++ Header "Meeting Analysis Dashboard" :: rest)%list) /\
    In (Mermaid code h) rest.
Proof.
  intros Hla Hshape Hfb.
  pose proof (shape_truthy v Hshape) as Htr.
  destruct (panels_draws v w Hshape) as (shown & Hpanels).
  assert (Hd : exists d, getitem v "mermaid_diagram" = Ok (PStr d)).
  { unfold analysis_shape in Hshape.
    apply andb_prop in Hshape as (_ & Hm).
    destruct (has_Ok _ _ _ Hm) as (x & Hx & Hs).
    destruct x; try discriminate. eauto. }
  destruct Hd as (d & Hd).
  unfold dashboard, bind at 1, get. rewrite Hla. unfold when. rewrite Htr.
  unfold bind at 1. rewrite Hpanels.
  rewrite (flow_diagram_str e v d) by assumption. cbn [state disk page].
  rewrite <- List.app_assoc. rewrite <- app_comm_cons.
  destruct (diagram_ok e); do 3 eexists; (split; [reflexivity|]);
    apply in_or_app; right; simpl; eauto.
Qed.

Lemma playback_draws (w : world) :
  exists shown,
    playback w
    = (Ok tt, World (state w) (disk w) (page w ++ shown)%list).
Proof.
  unfold playback, bind, get, emit, ret. simpl.
  destruct (last_recording (state w)); simpl; eexists.
  - now rewrite <- List.app_assoc.
  - now rewrite app_nil_r, world_eta.
Qed.

(** X20.  A session that holds an analysis of the shape the prompt asks
    for (a summary, a list of decisions, action items with their five
    fields, a diagram string), with a widget that accepts at least the
    fallback: a redraw never raises; it draws the dashboard with a
    diagram and goes on to the saved-recordings section. *)
Theorem well_formed_analysis_always_renders
    (e : env) (w : world) (v : pyval) :
  last_analysis (state w) = Some v ->
  analysis_shape v = true ->
  fallback_ok e = true ->
  fst (rerun e NoClick w) = Ok tt /\
  In (Header "Meeting Analysis Dashboard") (page (snd (rerun e NoClick w))) /\
  (exists code h, In (Mermaid code h) (page (snd (rerun e NoClick w)))) /\
  In (Expander "Saved Recordings" false) (page (snd (rerun e NoClick w))).
Proof.
  intros Hla Hshape Hfb.
  assert (E : exists above rest code h played entries,
             rerun e NoClick w
             = (Ok tt,
                World (state w) (disk w)
                      ((((heading ++ above)
                         ++ Header "Meeting Analysis Dashboard" :: rest)
                        ++ played)
                       ++ Expander "Saved Recordings" false :: entries)%list)
             /\ In (Mermaid code h) rest).
  { rewrite rerun_handlers. unfold bind at 1.
    rewrite handlers_no_click, display_split. unfold bind at 1.
    destruct (before_dashboard (World (state w) (disk w) heading))
      as (above & -> & _).
    cbn [state disk page]. unfold bind at 1.
    destruct (dashboard_draws_all e v
                (World (state w) (disk w) (heading ++ above))
                Hla Hshape Hfb) as (rest & code & h & -> & Hin).
    cbn [state disk page]. unfold bind at 1.
    match goal with
    | |- context [playback ?w0] =>
        destruct (playback_draws w0) as (played & ->)
    end.
    cbn [state disk page]. rewrite show_saved_recordings_draws.
    cbn [state disk page]. do 6 eexists. split; [reflexivity | exact Hin]. }
  destruct E as (above & rest & code & h & played & entries & -> & Hin).
  cbn [fst snd page]. split; [reflexivity|]. split; [|split].
  - apply in_or_app. left. apply in_or_app. left. apply in_or_app. right.
    now left.
  - exists code, h.
    apply in_or_app. left. apply in_or_app. left. apply in_or_app. right.
    now right.
  - apply in_or_app. right. now left.
Qed.

Lemma well_formed_analysis_always_renders_witness :
  analysis_shape sample_analysis = true /\
  fst (rerun strict_widget NoClick analysed_world) = Ok tt.
Proof.
  split; [reflexivity|].
  destruct (well_formed_analysis_always_renders strict_widget analysed_world
              sample_analysis eq_refl eq_refl eq_refl) as (H & _).
  exact H.
Defined.

End WellFormed.

(** ** File names and the request *)

Section NamesAndRequest.
Import Stamp App Analyzer.

(** X21.  The names [save_audio] gives to two valid clock readings all
    have the same length, and they compare as strings exactly as the
    readings compare in time, to the second: an earlier recording has a
    smaller name, a later one a larger name, and equal names mean the same
    second.  The same holds of the names inside the directory. *)
Theorem names_order_as_time (a b : datetime) :
  valid a -> valid b ->
  String.length (filename a) = 36%nat /\
  String.length (basename a) = 25%nat /\
  String.compare (filename a) (filename b) = Stamp.compare a b /\
  String.compare (basename a) (basename b) = Stamp.compare a b.
Proof.
  intros Ha Hb.
  split; [reflexivity|]. split; [reflexivity|]. split.
  - now apply filename_compare.
  - now apply basename_compare.
Qed.

Lemma names_order_as_time_witness :
  valid noon_sharp /\ valid evening /\
  String.compare (basename noon_sharp) (basename evening) = Lt.
Proof.
  assert (Ha : valid noon_sharp) by (unfold valid; simpl; lia).
  assert (Hb : valid evening) by (unfold valid; simpl; lia).
  split; [exact Ha|]. split; [exact Hb|].
  destruct (names_order_as_time noon_sharp evening Ha Hb)
    as (_ & _ & _ & ->).
  reflexivity.
Defined.

Lemma string_app_inv_tail (a b c : string) : a ++ c = b ++ c -> a = b.
Proof.
  intros H. apply (f_equal String.rev) in H.
  rewrite !rev_app_distr in H. apply String.app_inj in H.
  rewrite <- (rev_involutive a), <- (rev_involutive b). now rewrite H.
Qed.

Lemma contains_refl (t : string) : PyStr.contains t t = true.
Proof.
  assert (H : String.prefix t t = true)
    by (apply prefix_iff; exists ""; now rewrite string_app_empty_r).
  destruct t; simpl in *; [reflexivity | now rewrite H].
Qed.

(** X22.  The request sent to the analyzer carries the transcript whole
    and unchanged inside the user message, whatever its length: the
    prompt is as long as the transcript plus the 1776 characters of the
    fixed text, the transcript occurs in it, and two transcripts that
    differ give requests that differ. *)
Theorem request_carries_the_whole_transcript (t t' : string) :
  String.length (prompt t) = (String.length t + 1776)%nat /\
  PyStr.contains t (prompt t) = true /\
  (analysis_request t = analysis_request t' -> t = t').
Proof.
  split; [|split].
  - unfold prompt. rewrite !string_length_app.
    replace (String.length prompt_head) with 1211%nat
      by (vm_compute; reflexivity).
    replace (String.length prompt_tail) with 565%nat
      by (vm_compute; reflexivity).
    lia.
  - unfold prompt. apply contains_app_r, contains_app_l, contains_refl.
  - unfold analysis_request, prompt. intros E. inversion E as [H].
    apply String.app_inj in H. now apply string_app_inv_tail in H.
Qed.

End NamesAndRequest.
